(** * messengerbot: the webhook pipeline of [src/messengerbot.js]

  A shallow embedding of the Express middleware stack that
  [MessengerBot._init] installs, and the properties of the
  verification, decoding and dispatch stages.

  Layout: JavaScript values and the operators the source applies to
  them ([Js]); the effects of one request, as a state-and-exception
  monad ([Effects]); the part of Express the stack relies on
  ([Express]); the stack itself ([MessengerBot]); readers for JSON
  texts, request bodies and percent-encoded paths, used to run the
  stack on literal requests ([JSON], [BodyParser], [URI]); the sender
  ([Outbound]); then the theorems. *)

From Stdlib Require Import String Ascii List ZArith NArith Bool Lia.
From Stdlib Require Import DecimalString.
From ExtLib Require Import Structures.Monad.
Import ListNotations.
Set Warnings "-register-all".
Import MonadNotation.
Local Open Scope string_scope.
Local Open Scope monad_scope.

(* ===================================================================== *)
(** ** JavaScript values *)
(* ===================================================================== *)

Module Js.

(** A JSON number is kept as the decimal literal [mantissa * 10^exp10];
    [JSON.parse] rounds it to a double. *)
Record number := { mantissa : Z; exp10 : Z }.

(** What [JSON.parse] can return.  An object keeps its members in
    source order, duplicates included: the last one wins on lookup. *)
Inductive json :=
| JNull
| JBool (b : bool)
| JNum (n : number)
| JStr (s : string)
| JArr (elements : list json)
| JObj (members : list (string * json)).

(** The values the handlers see: [undefined], or a JSON value. *)
Definition value := option json.
Definition undefined : value := None.

(** Exceptions raised while a request is handled. *)
Inductive js_error :=
| SyntaxError        (* JSON.parse on a malformed text *)
| TypeError          (* property of undefined/null, non-iterable, ... *)
| HeadersSentError   (* a second response on the same request *)
| URIError           (* decodeURIComponent on a malformed escape *)
| HttpError (status : N).  (* made by the body parser, with its status *)

(** The [status] property of an error, when it has one: the router sets
    400 on the [URIError] of a path it cannot decode. *)
Definition error_status (e : js_error) : option N :=
  match e with
  | URIError => Some 400%N
  | HttpError status => Some status
  | _ => None
  end.

(** Result of evaluating an expression that may throw. *)
Inductive completion (A : Type) :=
| Normal (a : A)
| Throw (e : js_error).
Arguments Normal {A} a.
Arguments Throw {A} e.

#[export] Instance Monad_completion : Monad completion :=
  {| ret := fun _ a => Normal a;
     bind := fun _ _ c k =>
               match c with
               | Normal a => k a
               | Throw e => Throw e
               end |}.

(** The double nearest to [m * 10^e] is zero exactly when
    [|m * 10^e| <= 2^-1075] (half of the least subnormal; the tie goes
    to the even neighbour, which is zero). *)
Definition rounds_to_zero (n : number) : bool :=
  if (0 <=? exp10 n)%Z then (mantissa n =? 0)%Z
  else (Z.abs (mantissa n) * 2 ^ 1075 <=? 10 ^ (- exp10 n))%Z.

(** ToBoolean.  Arrays and objects are truthy, also when empty. *)
Definition truthy (v : value) : bool :=
  match v with
  | None => false
  | Some JNull => false
  | Some (JBool b) => b
  | Some (JNum n) => negb (rounds_to_zero n)
  | Some (JStr s) => negb (String.eqb s "")
  | Some (JArr _) => true
  | Some (JObj _) => true
  end.

(** [a && b]: [b] is evaluated only when [a] is truthy. *)
Definition js_and (a b : completion value) : completion value :=
  x <- a ;; if truthy x then b else ret x.

(** Own property of an object built by [JSON.parse]. *)
Fixpoint own_property (k : string) (members : list (string * json)) : value :=
  match members with
  | [] => undefined
  | (k', v) :: rest =>
      match own_property k rest with
      | Some later => Some later
      | None => if String.eqb k k' then Some v else undefined
      end
  end.

(** The property names the source reads with dot notation.  None of
    them is defined on [Object.prototype], [Array.prototype],
    [String.prototype], [Number.prototype] or [Boolean.prototype], so
    on anything but an object with such a member the read gives
    [undefined]. *)
Inductive prop := entry | messaging | message | text | sender.

Definition prop_name (p : prop) : string :=
  match p with
  | entry => "entry"
  | messaging => "messaging"
  | message => "message"
  | text => "text"
  | sender => "sender"
  end.

(** [v.p] *)
Definition get (v : value) (p : prop) : completion value :=
  match v with
  | None | Some JNull => Throw TypeError
  | Some (JObj members) => Normal (own_property (prop_name p) members)
  | Some _ => Normal undefined
  end.

(** [v[0]] *)
Definition get0 (v : value) : completion value :=
  match v with
  | None | Some JNull => Throw TypeError
  | Some (JObj members) => Normal (own_property "0" members)
  | Some (JArr elements) => Normal (hd_error elements)
  | Some (JStr (String c _)) => Normal (Some (JStr (String c "")))
  | Some _ => Normal undefined
  end.

(** The sequence a [for ... of] loop runs over.  A string is iterated
    character by character; every element is then a non-empty
    string. *)
Definition iterate (v : value) : completion (list json) :=
  match v with
  | Some (JArr elements) => Normal elements
  | Some (JStr s) =>
      Normal (map (fun c => JStr (String c "")) (list_ascii_of_string s))
  | _ => Throw TypeError
  end.

(** [a === b] for a string [a]. *)
Definition strict_equal_string (a : string) (b : value) : bool :=
  match b with
  | Some (JStr s) => String.eqb a s
  | _ => false
  end.

End Js.
Import Js.

(* ===================================================================== *)
(** ** Effects of handling one request *)
(* ===================================================================== *)

Module Effects.

(** Payload of a "message" notification: [{ sender, message, raw }]. *)
Record message_event := { ev_sender : value; ev_message : value; ev_raw : value }.

(** What [emit] publishes, by event name. *)
Inductive notification :=
| Receive (events : value)       (* emit('receive', messaging) *)
| Message (m : message_event)    (* emit('message', {...}) *)
| Error (err : js_error).        (* emit('error', err) *)

(** What the client is sent: [res.statusCode] and the body. *)
Record response := { statusCode : N; content : value }.

(** [req.body] once the body parser has set it: a [Buffer] with the
    bytes it read, or the empty object. *)
Inductive raw_body :=
| Buffer (bytes : list Byte.byte)
| EmptyObject.

(** The mutable state one request touches: the notifications
    published so far (oldest first), the response once sent, the
    [req.body] field the body parser sets and the [req.json] field the
    decoder sets. *)
Record world := {
  emitted : list notification;
  res : option response;
  req_body : option raw_body;
  req_json : value
}.

Definition fresh : world :=
  {| emitted := []; res := None; req_body := None; req_json := undefined |}.

(** Statements: they change the world and may throw; what was done
    before the throw stays done. *)
Definition M (A : Type) := world -> world * completion A.

#[export] Instance Monad_M : Monad M :=
  {| ret := fun _ a w => (w, Normal a);
     bind := fun _ _ c k w =>
               match c w with
               | (w', Normal a) => k a w'
               | (w', Throw e) => (w', Throw e)
               end |}.

Definition lift {A} (c : completion A) : M A := fun w => (w, c).

(** [this.emit(name, payload)] on the bot.  Subscribers are taken to
    return normally and to leave the request alone. *)
Definition emit (n : notification) : M unit :=
  fun w => ({| emitted := emitted w ++ [n]; res := res w;
               req_body := req_body w; req_json := req_json w |},
            Normal tt).

(** [res.send(body)]: the status stays at its default, 200. *)
Definition send_with (code : N) (b : value) : M unit :=
  fun w =>
    match res w with
    | Some _ => (w, Throw HeadersSentError)
    | None =>
        ({| emitted := emitted w;
            res := Some {| statusCode := code; content := b |};
            req_body := req_body w;
            req_json := req_json w |}, Normal tt)
    end.

Definition send (b : value) : M unit := send_with 200 b.

Definition status_message (code : N) : string :=
  if (code =? 200)%N then "OK"
  else if (code =? 400)%N then "Bad Request"
  else NilEmpty.string_of_uint (N.to_uint code).

(** [res.sendStatus(code)]: the status text is the body. *)
Definition sendStatus (code : N) : M unit :=
  send_with code (Some (JStr (status_message code))).

Definition read_json : M value := fun w => (w, Normal (req_json w)).

Definition write_json (j : json) : M unit :=
  fun w => ({| emitted := emitted w; res := res w;
               req_body := req_body w; req_json := Some j |}, Normal tt).

Definition read_body : M (option raw_body) := fun w => (w, Normal (req_body w)).

Definition write_body (b : raw_body) : M unit :=
  fun w => ({| emitted := emitted w; res := res w;
               req_body := Some b; req_json := req_json w |}, Normal tt).

(** [for (let x of xs) body] *)
Fixpoint for_of {A} (xs : list A) (body : A -> M unit) : M unit :=
  match xs with
  | [] => ret tt
  | x :: rest => body x ;; for_of rest body
  end.

End Effects.
Import Effects.

(* ===================================================================== *)
(** ** The part of Express the stack relies on *)
(* ===================================================================== *)

Module Express.

(** How a handler hands over: it returns without calling [next] (the
    request ends with it), or its last act is [next()] or [next(err)]. *)
Inductive handover :=
| Stop
| Next (err : option js_error).

(** The receiver a function is called with.  An arrow function keeps
    the [this] of the method that creates it (the bot); a [function]
    expression takes the caller's, and the router calls its handlers as
    plain functions, [fn(err, req, res, next)]: in the strict code of a
    class body that makes [this] undefined. *)
Inductive receiver := ThisBot | ThisUndefined.

(** Where the walk over the stack stopped. *)
Inductive flow :=
| Ended                              (* a handler did not call next *)
| FellThrough (err : option js_error).  (* next() past the last layer *)

Section Router.

Variable request : Type.

(** A layer of the stack: [use(fn)] with three parameters; a route,
    [all(pattern, fn)], with the match of its pattern against the path
    (matched, not matched, or an error raised while matching); or
    [use(fn)] with four parameters (an error handler). *)
Inductive layer :=
| Handle (fn : receiver -> request -> M handover)
| Route (matches : request -> completion bool)
        (fn : receiver -> request -> M handover)
| HandleError (fn : receiver -> js_error -> request -> M handover).

(** An arrow function ignores the receiver it is called with. *)
Definition arrow (fn : request -> M handover) : receiver -> request -> M handover :=
  fun _ => fn.

(** A synchronous throw inside a handler is caught by its layer and
    becomes [next(err)]. *)
Definition call (h : M handover) (w : world) : world * handover :=
  match h w with
  | (w', Normal o) => (w', o)
  | (w', Throw e) => (w', Next (Some e))
  end.

(** [next(err)]: layers that do not fit the current state (an error
    handler without an error, a plain one with an error) are skipped.
    A route is not tried while an error is pending; an error raised
    while its pattern is matched is kept and handed to the layers that
    follow. *)
Fixpoint route (stack : list layer) (err : option js_error)
  (req : request) (w : world) : world * flow :=
  match stack with
  | [] => (w, FellThrough err)
  | l :: rest =>
      match l, err with
      | Handle fn, None =>
          match call (fn ThisUndefined req) w with
          | (w', Stop) => (w', Ended)
          | (w', Next err') => route rest err' req w'
          end
      | Route matches fn, None =>
          match matches req with
          | Normal true =>
              match call (fn ThisUndefined req) w with
              | (w', Stop) => (w', Ended)
              | (w', Next err') => route rest err' req w'
              end
          | Normal false => route rest None req w
          | Throw e => route rest (Some e) req w
          end
      | HandleError fn, Some e =>
          match call (fn ThisUndefined e req) w with
          | (w', Stop) => (w', Ended)
          | (w', Next err') => route rest err' req w'
          end
      | Handle _, Some _ => route rest err req w
      | Route _ _, Some _ => route rest err req w
      | HandleError _, None => route rest err req w
      end
  end.

End Router.

Arguments Handle {request} fn.
Arguments Route {request} matches fn.
Arguments HandleError {request} fn.
Arguments arrow {request} fn _ /.
Arguments route {request} stack err req w.

(** The status the final handler gives an error: its [status] when
    that is a 4xx or 5xx code, 500 otherwise. *)
Definition status_of_error (e : js_error) : N :=
  match error_status e with
  | Some s => if ((400 <=? s) && (s <? 600))%N then s else 500%N
  | None => 500%N
  end.

(** The status line the client receives.  A response sent by the stack
    stands.  Otherwise the final handler answers: by the error when
    there is one, 404 when the stack was walked through without one;
    nothing if a handler neither answered nor called [next]. *)
Definition final_status (w : world) (f : flow) : option N :=
  match res w, f with
  | Some r, _ => Some (statusCode r)
  | None, FellThrough (Some e) => Some (status_of_error e)
  | None, FellThrough None => Some 404%N
  | None, Ended => None
  end.

End Express.
Import Express.

(* ===================================================================== *)
(** ** The stack installed by [MessengerBot._init] *)
(* ===================================================================== *)

Module MessengerBot.

(** [this.botConfig], frozen at construction. *)
Record botConfig := { pageAccessToken : string; verifyToken : string }.

(** What the handlers and the layers before them see of a request:
    the method, the path of the URL as it was sent, the parsed query,
    the headers (names in lower case) and the bytes of the message
    body as they arrive. *)
Record request := {
  method : string;
  path : string;
  query : list (string * json);
  headers : list (string * string);
  payload : list Byte.byte
}.

(** What [bodyParser.raw] decides on a request: to leave it alone (no
    body, or no content type it accepts), to hand over the bytes it
    read, or to refuse it with an error of the given status (body over
    the limit, unsupported encoding, size not matching the declared
    length, ...). *)
Inductive read_outcome :=
| Skip
| Read (bytes : list Byte.byte)
| Refuse (status : N).

Section Pipeline.

(** The library and platform functions the stack calls: the reader of
    [bodyParser.raw({ type: '*/*' })], [decodeURIComponent] (the router
    applies it to what a pattern matched), [Buffer.prototype.toString]
    with ['utf8'], and [JSON.parse].  [None] stands for the error
    thrown. *)
Variable bodyParser_read : request -> read_outcome.
Variable decodeURIComponent : string -> option string.
Variable Buffer_toString_utf8 : list Byte.byte -> string.
Variable JSON_parse : string -> option json.

Variable config : botConfig.

(** Line 66, [bodyParser.raw({ type: '*/*' })]: [req.body] becomes the
    empty object, then the buffer when a body is read; a refused body
    is an error passed to [next]. *)
Definition rawParser (req : request) : M handover :=
  b <- read_body ;;
  match b with
  | None => write_body EmptyObject
  | Some _ => ret tt
  end ;;
  match bodyParser_read req with
  | Skip => ret (Next None)
  | Read bytes => write_body (Buffer bytes) ;; ret (Next None)
  | Refuse status => ret (Next (Some (HttpError status)))
  end.

(** [req.body.toString('utf8')]; on the empty object this is
    [Object.prototype.toString], which ignores its argument. *)
Definition body_toString (b : raw_body) : string :=
  match b with
  | Buffer bytes => Buffer_toString_utf8 bytes
  | EmptyObject => "[object Object]"
  end.

(** Lines 68-75.  The handlers of lines 68, 77 and 87 are arrow
    functions: their [this] is the bot, and [emit] publishes on it. *)
Definition verify_middleware (req : request) : M handover :=
  if String.eqb (method req) "GET" then
    let isValid :=
      strict_equal_string (verifyToken config)
        (own_property "hub.verify_token" (query req)) in
    (if isValid
     then send (own_property "hub.challenge" (query req))
     else send (Some (JStr "Error"))) ;;
    ret Stop
  else
    ret (Next None).

(** Lines 77-85: [.then(next)] after a successful parse,
    [.catch(next)] with the error otherwise.  [req.body.toString] is
    evaluated before the promise exists: on an undefined [req.body] it
    throws out of the handler. *)
Definition decode_middleware (req : request) : M handover :=
  b <- read_body ;;
  match b with
  | None => lift (Throw TypeError)
  | Some body =>
      match JSON_parse (body_toString body) with
      | Some json => write_json json ;; ret (Next None)
      | None => ret (Next (Some SyntaxError))
      end
  end.

(** [json.entry[0]] *)
Definition entry0 (json : value) : completion value :=
  e <- get json entry ;; get0 e.

(** [json.entry[0].messaging] *)
Definition entry0_messaging (json : value) : completion value :=
  e0 <- entry0 json ;; get e0 messaging.

(** [req.json && req.json.entry[0] && req.json.entry[0].messaging] *)
Definition guard (json : value) : completion value :=
  js_and (js_and (ret json) (entry0 json)) (entry0_messaging json).

(** [result.message.text] *)
Definition message_text (result : value) : completion value :=
  m <- get result message ;; get m text.

(** Lines 91-97, the body of the loop. *)
Definition promote (result : json) : M unit :=
  t <- lift (message_text (Some result)) ;;
  if truthy t then
    s <- lift (get (Some result) sender) ;;
    t' <- lift (message_text (Some result)) ;;
    emit (Message {| ev_sender := s; ev_message := t'; ev_raw := Some result |})
  else ret tt.

(** Lines 87-102. *)
Definition dispatch_handler (req : request) : M handover :=
  json <- read_json ;;
  g <- lift (guard json) ;;
  (if truthy g then
     events <- lift (entry0_messaging json) ;;
     emit (Receive events) ;;
     events' <- lift (entry0_messaging json) ;;
     results <- lift (iterate events') ;;
     for_of results promote
   else ret tt) ;;
  sendStatus 200 ;;
  ret (Next None).

(** The pattern ['*'] of line 87: it matches every path, and the router
    then decodes what it matched, the whole path; a path that does not
    decode is an error of the layer. *)
Definition match_star (req : request) : completion bool :=
  match decodeURIComponent (path req) with
  | Some _ => Normal true
  | None => Throw URIError
  end.

(** [this.emit(...)] inside a [function] expression: [this] is whatever
    the caller supplies. *)
Definition emit_on (this : receiver) (n : notification) : M unit :=
  match this with
  | ThisBot => emit n
  | ThisUndefined => lift (Throw TypeError)
  end.

(** Lines 104-109, a [function] expression. *)
Definition error_middleware (this : receiver) (err : js_error)
  (req : request) : M handover :=
  emit_on this (Error err) ;;
  sendStatus 400 ;;
  ret (Next None).

(** The stack, in the order of the [use]/[all] calls of lines 66-109. *)
Definition _init : list (layer request) :=
  [ Handle (arrow rawParser);
    Handle (arrow verify_middleware);
    Handle (arrow decode_middleware);
    Route match_star (arrow dispatch_handler);
    HandleError error_middleware ].

(** One request through the stack. *)
Definition serve (req : request) : world * flow :=
  route _init None req fresh.

Definition published (req : request) : list notification :=
  emitted (fst (serve req)).

Definition answer (req : request) : option response :=
  res (fst (serve req)).

Definition status_seen (req : request) : option N :=
  final_status (fst (serve req)) (snd (serve req)).

(** The body parser did not refuse the request. *)
Definition passed (req : request) : bool :=
  match bodyParser_read req with
  | Refuse _ => false
  | _ => true
  end.

(** [req.body] as the body parser leaves it. *)
Definition body_left (req : request) : raw_body :=
  match bodyParser_read req with
  | Read bytes => Buffer bytes
  | _ => EmptyObject
  end.

(** What the decoder makes of the request: the parsed body, when the
    body parser passed the request on and the text parses. *)
Definition decoded (req : request) : option json :=
  if passed req then JSON_parse (body_toString (body_left req)) else None.

(** The path can be percent-decoded. *)
Definition path_decodes (req : request) : bool :=
  match decodeURIComponent (path req) with
  | Some _ => true
  | None => false
  end.

End Pipeline.

Arguments entry0 json : simpl never.
Arguments entry0_messaging json : simpl never.
Arguments guard json : simpl never.
Arguments message_text result : simpl never.
Arguments promote result : simpl never.

End MessengerBot.
Import MessengerBot.

(* ===================================================================== *)
(** ** A reader for JSON texts *)
(* ===================================================================== *)

(** The grammar of ECMA-404, as [JSON.parse] accepts it, over the bytes
    of the text.  It instantiates the [JSON_parse] parameter of the
    pipeline when a request with a literal body is run; the general
    theorems do not depend on it. *)
Module JSON.

Local Open Scope char_scope.
Local Open Scope N_scope.

Definition is_ws (c : ascii) : bool :=
  match N_of_ascii c with
  | 32 | 9 | 10 | 13 => true
  | _ => false
  end.

Fixpoint skip_ws (s : string) : string :=
  match s with
  | String c rest => if is_ws c then skip_ws rest else s
  | EmptyString => s
  end.

Definition digit_of (c : ascii) : option Z :=
  let n := N_of_ascii c in
  if (48 <=? n) && (n <=? 57) then Some (Z.of_N (n - 48)) else None.

Definition hex_of (c : ascii) : option N :=
  let n := N_of_ascii c in
  if (48 <=? n) && (n <=? 57) then Some (n - 48)
  else if (65 <=? n) && (n <=? 70) then Some (n - 55)
  else if (97 <=? n) && (n <=? 102) then Some (n - 87)
  else None.

(** Four hexadecimal digits. *)
Definition hex4 (s : string) : option (N * string) :=
  match s with
  | String a (String b (String c (String d rest))) =>
      match hex_of a, hex_of b, hex_of c, hex_of d with
      | Some x, Some y, Some z, Some t => Some (((x * 16 + y) * 16 + z) * 16 + t, rest)
      | _, _, _, _ => None
      end
  | _ => None
  end.

Definition utf8_encode (cp : N) : string :=
  let b := ascii_of_N in
  if cp <? 128 then String (b cp) ""
  else if cp <? 2048 then
    String (b (192 + cp / 64)) (String (b (128 + cp mod 64)) "")
  else if cp <? 65536 then
    String (b (224 + cp / 4096))
      (String (b (128 + (cp / 64) mod 64)) (String (b (128 + cp mod 64)) ""))
  else
    String (b (240 + cp / 262144))
      (String (b (128 + (cp / 4096) mod 64))
         (String (b (128 + (cp / 64) mod 64)) (String (b (128 + cp mod 64)) ""))).

(** [\uXXXX], after the [\u]: one code unit, or a surrogate pair. *)
Definition unicode_escape (s : string) : option (string * string) :=
  match hex4 s with
  | None => None
  | Some (hi, rest) =>
      let alone := Some (utf8_encode hi, rest) in
      if (55296 <=? hi) && (hi <=? 56319) then
        match rest with
        | String "\" (String "u" rest') =>
            match hex4 rest' with
            | Some (lo, rest'') =>
                if (56320 <=? lo) && (lo <=? 57343)
                then Some (utf8_encode (65536 + (hi - 55296) * 1024 + (lo - 56320)), rest'')
                else alone
            | None => alone
            end
        | _ => alone
        end
      else alone
  end.

(** The characters of a string literal, after the opening quote. *)
Fixpoint chars (fuel : nat) (s : string) : option (string * string) :=
  match fuel with
  | O => None
  | S fuel =>
      match s with
      | EmptyString => None
      | String "034" rest => Some (EmptyString, rest)
      | String "\" EmptyString => None
      | String "\" (String e rest) =>
          let plain (c : N) :=
            match chars fuel rest with
            | Some (t, r) => Some (String (ascii_of_N c) t, r)
            | None => None
            end in
          match e with
          | "034" => plain 34
          | "\" => plain 92
          | "/" => plain 47
          | "b" => plain 8
          | "f" => plain 12
          | "n" => plain 10
          | "r" => plain 13
          | "t" => plain 9
          | "u" =>
              match unicode_escape rest with
              | Some (enc, r) =>
                  match chars fuel r with
                  | Some (t, r') => Some (String.append enc t, r')
                  | None => None
                  end
              | None => None
              end
          | _ => None
          end
      | String c rest =>
          if N_of_ascii c <? 32 then None
          else match chars fuel rest with
               | Some (t, r) => Some (String c t, r)
               | None => None
               end
      end
  end.

Local Open Scope Z_scope.

(** A run of decimal digits: value accumulated, how many, what follows. *)
Fixpoint digits (acc count : Z) (s : string) : Z * Z * string :=
  match s with
  | String c rest =>
      match digit_of c with
      | Some d => digits (10 * acc + d) (count + 1) rest
      | None => (acc, count, s)
      end
  | EmptyString => (acc, count, s)
  end.

Definition fraction (int : Z) (s : string) : option (Z * Z * string) :=
  match s with
  | String "." rest =>
      let '(m, k, rest') := digits int 0 rest in
      if k =? 0 then None else Some (m, k, rest')
  | _ => Some (int, 0, s)
  end.

Definition exponent (s : string) : option (Z * string) :=
  let after_sign (r : string) :=
    match r with
    | String "-" r' => (true, r')
    | String "+" r' => (false, r')
    | _ => (false, r)
    end in
  let read (r : string) :=
    let '(neg, r1) := after_sign r in
    let '(e, n, r2) := digits 0 0 r1 in
    if n =? 0 then None else Some (if neg : bool then - e else e, r2) in
  match s with
  | String "e" r => read r
  | String "E" r => read r
  | _ => Some (0, s)
  end.

(** An optional minus sign; an integer part without a leading zero
    (or the single digit zero); an optional fraction; an optional
    exponent. *)
Definition number (s : string) : option (Js.number * string) :=
  let '(neg, s1) :=
    match s with
    | String "-" r => (true, r)
    | _ => (false, s)
    end in
  match s1 with
  | EmptyString => None
  | String c r =>
      match digit_of c with
      | None => None
      | Some d =>
          let '(int, _, s2) := if d =? 0 then (0, 1, r) else digits d 1 r in
          match fraction int s2 with
          | None => None
          | Some (m, k, s3) =>
              match exponent s3 with
              | None => None
              | Some (e, s4) =>
                  Some ({| mantissa := if neg : bool then - m else m;
                           exp10 := e - k |}, s4)
              end
          end
      end
  end.

Fixpoint value (fuel : nat) (s : string) {struct fuel} : option (json * string) :=
  match fuel with
  | O => None
  | S fuel =>
      match skip_ws s with
      | String "{" r =>
          match skip_ws r with
          | String "}" r' => Some (JObj [], r')
          | _ =>
              match members fuel r with
              | Some (ms, r') => Some (JObj ms, r')
              | None => None
              end
          end
      | String "[" r =>
          match skip_ws r with
          | String "]" r' => Some (JArr [], r')
          | _ =>
              match elements fuel r with
              | Some (vs, r') => Some (JArr vs, r')
              | None => None
              end
          end
      | String "034" r =>
          match chars (String.length r) r with
          | Some (t, r') => Some (JStr t, r')
          | None => None
          end
      | String "t" (String "r" (String "u" (String "e" r))) => Some (JBool true, r)
      | String "f" (String "a" (String "l" (String "s" (String "e" r)))) =>
          Some (JBool false, r)
      | String "n" (String "u" (String "l" (String "l" r))) => Some (JNull, r)
      | s' =>
          match number s' with
          | Some (n, r) => Some (JNum n, r)
          | None => None
          end
      end
  end

with elements (fuel : nat) (s : string) {struct fuel} : option (list json * string) :=
  match fuel with
  | O => None
  | S fuel =>
      match value fuel s with
      | None => None
      | Some (v, r) =>
          match skip_ws r with
          | String "," r' =>
              match elements fuel r' with
              | Some (vs, r'') => Some (v :: vs, r'')
              | None => None
              end
          | String "]" r' => Some ([v], r')
          | _ => None
          end
      end
  end

with members (fuel : nat) (s : string) {struct fuel}
  : option (list (string * json) * string) :=
  match fuel with
  | O => None
  | S fuel =>
      match skip_ws s with
      | String "034" r =>
          match chars (String.length r) r with
          | None => None
          | Some (k, r1) =>
              match skip_ws r1 with
              | String ":" r2 =>
                  match value fuel r2 with
                  | None => None
                  | Some (v, r3) =>
                      match skip_ws r3 with
                      | String "," r4 =>
                          match members fuel r4 with
                          | Some (ms, r5) => Some ((k, v) :: ms, r5)
                          | None => None
                          end
                      | String "}" r4 => Some ([(k, v)], r4)
                      | _ => None
                      end
                  end
              | _ => None
              end
          end
      | _ => None
      end
  end.

(** [JSON.parse(text)]: one value, then nothing but white space. *)
Definition parse (text : string) : option json :=
  match value (2 * String.length text + 2) text with
  | Some (v, rest) =>
      match skip_ws rest with
      | EmptyString => Some v
      | _ => None
      end
  | None => None
  end.

(** A Rocq string literal cannot hold a double quote conveniently: the
    example texts are written with apostrophes, turned into double
    quotes here. *)
Fixpoint dq (s : string) : string :=
  match s with
  | EmptyString => EmptyString
  | String c rest => String (if Ascii.eqb c "'" then "034" else c) (dq rest)
  end.

End JSON.

(** [Buffer.prototype.toString('utf8')] on a buffer that holds
    well-formed UTF-8: the text is that byte sequence.  (Node replaces
    ill-formed sequences by U+FFFD; the requests run below are ASCII.) *)
Definition toString_wellformed (bytes : list Byte.byte) : string :=
  string_of_list_byte bytes.



(* ===================================================================== *)
(** ** A reader for request bodies *)
(* ===================================================================== *)

(** [bodyParser.raw({ type: '*/*' })] with its defaults, as a function
    of the request; it instantiates the [bodyParser_read] parameter of
    the pipeline when a literal request is run.  Decompression is left
    to [inflate]. *)
Module BodyParser.

Local Open Scope N_scope.

(** The default limit, ['100kb']. *)
Definition limit : N := 102400.

Fixpoint header (name : string) (hs : list (string * string)) : option string :=
  match hs with
  | [] => None
  | (n, v) :: rest => if String.eqb n name then Some v else header name rest
  end.

Definition lower (c : ascii) : ascii :=
  let n := N_of_ascii c in
  if (65 <=? n) && (n <=? 90) then ascii_of_N (n + 32) else c.

Fixpoint lowercase (s : string) : string :=
  match s with
  | EmptyString => EmptyString
  | String c rest => String (lower c) (lowercase rest)
  end.

(** A header value that is a run of decimal digits. *)
Fixpoint decimal (acc : N) (s : string) : option N :=
  match s with
  | EmptyString => Some acc
  | String c rest =>
      let n := N_of_ascii c in
      if (48 <=? n) && (n <=? 57) then decimal (10 * acc + (n - 48)) rest else None
  end.

Definition content_length (req : request) : option N :=
  match header "content-length" (headers req) with
  | Some EmptyString | None => None
  | Some v => decimal 0 v
  end.

(** The request announces a body: it has a [Transfer-Encoding] or a
    [Content-Length]. *)
Definition hasBody (req : request) : bool :=
  match header "transfer-encoding" (headers req), content_length req with
  | None, None => false
  | _, _ => true
  end.

Definition alphanumeric (c : ascii) : bool :=
  let n := N_of_ascii c in
  ((48 <=? n) && (n <=? 57)) || ((65 <=? n) && (n <=? 90)) || ((97 <=? n) && (n <=? 122)).

(** The characters of a type or subtype name after the first. *)
Definition name_char (subtype : bool) (c : ascii) : bool :=
  alphanumeric c ||
  match N_of_ascii c with
  | 33 | 35 | 36 | 38 | 94 | 95 | 45 => true
  | 46 | 43 => subtype
  | _ => false
  end.

Fixpoint all_chars (p : ascii -> bool) (s : string) : bool :=
  match s with
  | EmptyString => true
  | String c rest => p c && all_chars p rest
  end.

Definition name_ok (subtype : bool) (s : string) : bool :=
  match s with
  | EmptyString => false
  | String c rest =>
      alphanumeric c && all_chars (name_char subtype) rest
      && (N.of_nat (String.length s) <=? 127)
  end.

(** The text before the first occurrence of [stop], and whether there
    is one. *)
Fixpoint before (stop : ascii) (s : string) : string * option string :=
  match s with
  | EmptyString => (EmptyString, None)
  | String c rest =>
      if Ascii.eqb c stop then (EmptyString, Some rest)
      else let '(a, b) := before stop rest in (String c a, b)
  end.

Fixpoint drop_spaces (s : string) : string :=
  match s with
  | String c rest => if Ascii.eqb c " " then drop_spaces rest else s
  | EmptyString => s
  end.

Fixpoint reverse (s acc : string) : string :=
  match s with
  | EmptyString => acc
  | String c rest => reverse rest (String c acc)
  end.

Definition trim (s : string) : string :=
  reverse (drop_spaces (reverse (drop_spaces s) EmptyString)) EmptyString.

(** A content type of the shape [type/subtype], parameters after a
    semicolon set aside (they are not examined here): every such type
    is accepted by ['*/*']. *)
Definition media_type_ok (v : string) : bool :=
  let '(essence, _) := before ";" v in
  match before "/" (trim essence) with
  | (type, Some subtype) => name_ok false type && name_ok true subtype
  | (_, None) => false
  end.

Definition accepts_type (req : request) : bool :=
  match header "content-type" (headers req) with
  | Some v => media_type_ok v
  | None => false
  end.

Definition encoding (req : request) : string :=
  match header "content-encoding" (headers req) with
  | Some EmptyString | None => "identity"
  | Some v => lowercase v
  end.

Definition read (inflate : string -> list Byte.byte -> option (list Byte.byte))
  (req : request) : read_outcome :=
  if negb (hasBody req) then Skip
  else if negb (accepts_type req) then Skip
  else
    let received := N.of_nat (length (payload req)) in
    if String.eqb (encoding req) "identity" then
      match content_length req with
      | Some n =>
          if limit <? n then Refuse 413
          else if limit <? received then Refuse 413
          else if negb (received =? n) then Refuse 400
          else Read (payload req)
      | None =>
          if limit <? received then Refuse 413 else Read (payload req)
      end
    else if String.eqb (encoding req) "gzip" || String.eqb (encoding req) "deflate" then
      match inflate (encoding req) (payload req) with
      | None => Refuse 400
      | Some bytes =>
          if limit <? N.of_nat (length bytes) then Refuse 413 else Read bytes
      end
    else Refuse 415.

End BodyParser.

(* ===================================================================== *)
(** ** A reader for percent-encoded paths *)
(* ===================================================================== *)

(** [decodeURIComponent] on texts kept as byte sequences: an escape
    must be [%] and two hexadecimal digits, and the bytes that escapes
    denote must be well-formed UTF-8. *)
Module URI.

Local Open Scope char_scope.
Local Open Scope N_scope.

Definition escape (s : string) : option (N * string) :=
  match s with
  | String "%" (String a (String b rest)) =>
      match JSON.hex_of a, JSON.hex_of b with
      | Some x, Some y => Some (16 * x + y, rest)
      | _, _ => None
      end
  | _ => None
  end.

(** An escape for a byte between [lo] and [hi]. *)
Definition escaped_in (lo hi : N) (s : string) : option (N * string) :=
  match escape s with
  | Some (b, rest) => if (lo <=? b) && (b <=? hi) then Some (b, rest) else None
  | None => None
  end.

(** The range of the second byte, by the first. *)
Definition second_range (b : N) : N * N :=
  if b =? 224 then (160, 191)
  else if b =? 237 then (128, 159)
  else if b =? 240 then (144, 191)
  else if b =? 244 then (128, 143)
  else (128, 191).

(** How many bytes follow a first byte; [None] when it cannot start a
    character. *)
Definition followers (b : N) : option nat :=
  if (194 <=? b) && (b <=? 223) then Some 1%nat
  else if (224 <=? b) && (b <=? 239) then Some 2%nat
  else if (240 <=? b) && (b <=? 244) then Some 3%nat
  else None.

Fixpoint continuation (n : nat) (lo hi : N) (s : string) : option (string * string) :=
  match n with
  | O => Some (EmptyString, s)
  | S n' =>
      match escaped_in lo hi s with
      | None => None
      | Some (b, rest) =>
          match continuation n' 128 191 rest with
          | Some (bytes, rest') => Some (String (ascii_of_N b) bytes, rest')
          | None => None
          end
      end
  end.

Fixpoint decode (fuel : nat) (s : string) : option string :=
  match fuel with
  | O => match s with EmptyString => Some EmptyString | _ => None end
  | S fuel =>
      match s with
      | EmptyString => Some EmptyString
      | String "%" _ =>
          match escape s with
          | None => None
          | Some (b, rest) =>
              if b <? 128 then
                option_map (String (ascii_of_N b)) (decode fuel rest)
              else
                match followers b with
                | None => None
                | Some n =>
                    let '(lo, hi) := second_range b in
                    match continuation n lo hi rest with
                    | None => None
                    | Some (bytes, rest') =>
                        option_map
                          (fun t => String (ascii_of_N b) (String.append bytes t))
                          (decode fuel rest')
                    end
                end
          end
      | String c rest => option_map (String c) (decode fuel rest)
      end
  end.

Definition decodeURIComponent (s : string) : option string :=
  decode (String.length s) s.

End URI.

(* ===================================================================== *)
(** ** Reading the notification log *)
(* ===================================================================== *)

Local Open Scope list_scope.

(** The world the dispatch handler starts from, once the body parser
    has left [b] and the decoder has stored the parsed body. *)
Definition after_decode (b : raw_body) (j : json) : world :=
  {| emitted := []; res := None; req_body := Some b; req_json := Some j |}.

(** The world once the body parser has left [b], nothing else done. *)
Definition after_parser (b : raw_body) : world :=
  {| emitted := []; res := None; req_body := Some b; req_json := undefined |}.

(** The world with more notifications published. *)
Definition log (w : world) (ns : list notification) : world :=
  {| emitted := emitted w ++ ns; res := res w;
     req_body := req_body w; req_json := req_json w |}.

(** The world once [res.sendStatus(code)] has answered. *)
Definition answered (w : world) (code : N) : world :=
  {| emitted := emitted w;
     res := Some {| statusCode := code; content := Some (JStr (status_message code)) |};
     req_body := req_body w;
     req_json := req_json w |}.

(** The loop body throws on an event exactly when [result.message.text]
    does. *)
Definition lacks_message (e : json) : bool :=
  match message_text (Some e) with
  | Throw _ => true
  | Normal _ => false
  end.

(** The events the loop gets through: those before the first one on
    which the body throws. *)
Fixpoint before_throw (evs : list json) : list json :=
  match evs with
  | [] => []
  | e :: rest => if lacks_message e then [] else e :: before_throw rest
  end.

Definition has_truthy_text (e : json) : bool :=
  match message_text (Some e) with
  | Normal t => truthy t
  | Throw _ => false
  end.

(** The "message" notification of an event with a truthy text; nothing
    for the others. *)
Definition message_of (e : json) : list notification :=
  match message_text (Some e), get (Some e) sender with
  | Normal t, Normal s =>
      if truthy t
      then [Message {| ev_sender := s; ev_message := t; ev_raw := Some e |}]
      else []
  | _, _ => []
  end.

(** The events a loop over [m] visits; none when [m] is not iterable. *)
Definition sequence_of (m : value) : list json :=
  match iterate m with
  | Normal evs => evs
  | Throw _ => []
  end.

Definition is_receive (n : notification) : bool :=
  match n with
  | Receive _ => true
  | _ => false
  end.

Definition count_receive (log : list notification) : nat :=
  length (filter is_receive log).

(** The sequence of section 4.3 of the specification: the elements of
    [entry[0].messaging] when all three are present, the empty sequence
    when one of them is absent. *)
Definition spec_extracted_sequence (j : json) : list json :=
  match entry0_messaging (Some j) with
  | Normal m => sequence_of m
  | Throw _ => []
  end.

(** [message.text] is present: the member exists, whatever it holds. *)
Definition spec_text_present (e : json) : bool :=
  match message_text (Some e) with
  | Normal (Some _) => true
  | _ => false
  end.


Definition is_error (n : notification) : bool :=
  match n with
  | Error _ => true
  | _ => false
  end.

(** The requests and the configuration of the scenarios of the
    specification. *)
Definition scenario_config : botConfig :=
  {| pageAccessToken := "T1"; verifyToken := "V1" |}.

Definition GET (token challenge : string) : request :=
  {| method := "GET";
     path := "/";
     query := [("hub.verify_token", JStr token); ("hub.challenge", JStr challenge)];
     headers := [];
     payload := [] |}.

(** A request with a JSON body of the given bytes: the content type and
    the length are declared as a client does. *)
Definition with_body (method path : string) (bytes : list Byte.byte) : request :=
  {| method := method;
     path := path;
     query := [];
     headers :=
       [("content-type", "application/json");
        ("content-length",
         NilEmpty.string_of_uint (N.to_uint (N.of_nat (length bytes))))];
     payload := bytes |}.

(** A GET that carries a body of [size] bytes besides its query. *)
Definition GET_with_body (token challenge : string) (size : N) : request :=
  {| method := "GET";
     path := "/";
     query := [("hub.verify_token", JStr token); ("hub.challenge", JStr challenge)];
     headers :=
       [("content-type", "application/octet-stream");
        ("content-length", NilEmpty.string_of_uint (N.to_uint size))];
     payload := repeat Byte.x61 (N.to_nat size) |}.

(** A POST to [/] whose body is the given text, apostrophes standing
    for double quotes. *)
Definition POST (text : string) : request :=
  with_body "POST" "/" (list_byte_of_string (JSON.dq text)).

(** No request run below carries a deflate or gzip stream. *)
Definition scenario_inflate (encoding : string) (bytes : list Byte.byte)
  : option (list Byte.byte) := None.

(** The stack run with the readers above. *)
Definition run (req : request) : world * flow :=
  serve (BodyParser.read scenario_inflate) URI.decodeURIComponent
    toString_wellformed JSON.parse scenario_config req.

Definition run_status (req : request) : option N :=
  status_seen (BodyParser.read scenario_inflate) URI.decodeURIComponent
    toString_wellformed JSON.parse scenario_config req.

Definition run_published (req : request) : list notification :=
  published (BodyParser.read scenario_inflate) URI.decodeURIComponent
    toString_wellformed JSON.parse scenario_config req.

Definition run_answer (req : request) : option response :=
  answer (BodyParser.read scenario_inflate) URI.decodeURIComponent
    toString_wellformed JSON.parse scenario_config req.

Definition parsed (req : request) : option json :=
  decoded (BodyParser.read scenario_inflate) toString_wellformed JSON.parse req.

(* ===================================================================== *)
(** ** The outbound sender: [_fetcher] and [postText] *)
(* ===================================================================== *)

Module Outbound.

(** The defaults [axios.create] is given (lines 56-61). *)
Record fetcher := {
  baseURL : string;
  params : list (string * json)
}.

Definition _fetcher (config : botConfig) : fetcher :=
  {| baseURL := "https://graph.facebook.com/v2.6/";
     params := [("access_token", JStr (pageAccessToken config))] |}.

(** [{ recipient: user, message: { text: message } }] *)
Record text_message := { text : value }.
Record send_data := { recipient : value; message : text_message }.

(** One call of [post] on a fetcher: the defaults, the relative URL
    and the data. *)
Record http_call := { via : fetcher; url : string; data : send_data }.

(** A promise, once settled. *)
Inductive promise (A E : Type) :=
| Resolved (a : A)
| Rejected (err : E).
Arguments Resolved {A E} a.
Arguments Rejected {A E} err.

(** What sending leaves behind: the lines written by [console.error]
    and the calls made on the fetcher, oldest first. *)
Record trace := { console : list value; outbox : list http_call }.

Section Sender.

(** What the platform answers, what a failed call is rejected with and
    its [stack] property, and how the platform settles a call. *)
Variable platform_response : Type.
Variable failure : Type.
Variable stack : failure -> value.
Variable settle : http_call -> promise platform_response failure.

Variable config : botConfig.

(** [fetcher.post(url, data)]: the call is made, and the promise of
    its outcome returned. *)
Definition post (f : fetcher) (url : string) (d : send_data)
  : trace -> trace * promise platform_response failure :=
  fun t =>
    let c := {| via := f; url := url; data := d |} in
    ({| console := console t; outbox := outbox t ++ [c] |}, settle c).

(** [p.catch(handler)] *)
Definition catch_ (p : trace -> trace * promise platform_response failure)
  (handler : failure -> trace -> trace * promise platform_response failure)
  : trace -> trace * promise platform_response failure :=
  fun t =>
    match p t with
    | (t', Resolved a) => (t', Resolved a)
    | (t', Rejected err) => handler err t'
    end.

Definition console_error (line : value) (t : trace) : trace :=
  {| console := console t ++ [line]; outbox := outbox t |}.

(** Lines 120-130.  [user] and [message] are the two members of the
    object the method is called with, undefined when missing. *)
Definition postText (user message : value)
  : trace -> trace * promise platform_response failure :=
  catch_
    (post (_fetcher config) "me/messages"
       {| recipient := user; message := {| text := message |} |})
    (fun err t => (console_error (stack err) t, Rejected err)).

End Sender.

End Outbound.

(** A platform for running [postText]: it refuses a message without a
    recipient and accepts any other, answering with the recipient. *)
Definition scenario_settle (c : Outbound.http_call) : Outbound.promise value string :=
  match Outbound.recipient (Outbound.data c) with
  | None => Outbound.Rejected "no recipient"
  | Some r => Outbound.Resolved (Some r)
  end.

(* ===================================================================== *)
(** ** Properties *)
(* ===================================================================== *)

(** *** Values and operators *)


Lemma get_throws_TypeError (v : value) (p : prop) (e : js_error) :
  get v p = Throw e -> e = TypeError.
Proof.
  destruct v as [[]|]; simpl; intros H; congruence.
Qed.

Lemma get0_throws_TypeError (v : value) (e : js_error) :
  get0 v = Throw e -> e = TypeError.
Proof.
  destruct v as [[| | | [|c s] | |]|]; simpl; intros H; congruence.
Qed.

Lemma message_text_throws_TypeError (v : value) (e : js_error) :
  message_text v = Throw e -> e = TypeError.
Proof.
  unfold message_text. cbn.
  destruct (get v message) as [m|e'] eqn:Hm.
  - apply get_throws_TypeError.
  - intros [= <-]. eapply get_throws_TypeError; eassumption.
Qed.

(** An event whose [message.text] is readable is neither [null] nor
    [undefined]: reading its [sender] does not throw. *)
Lemma sender_readable (e : json) (t : value) :
  message_text (Some e) = Normal t -> exists s, get (Some e) sender = Normal s.
Proof.
  destruct e; cbn; intros H; try discriminate; eexists; reflexivity.
Qed.

(** When [entry[0].messaging] is truthy, so are [req.json] and
    [entry[0]]: the guard yields the messaging value. *)
Lemma guard_of_truthy_messaging (j m : value) :
  entry0_messaging j = Normal m -> truthy m = true -> guard j = Normal m.
Proof.
  unfold guard, js_and, entry0_messaging. cbn.
  destruct (entry0 j) as [e0|] eqn:He0; [|discriminate].
  intros Hm Ht.
  assert (Hj : truthy j = true).
  { unfold entry0 in He0. cbn in He0.
    destruct j as [[| [] | n | s | |]|]; cbn in *; try discriminate; reflexivity. }
  assert (He : truthy e0 = true).
  { destruct e0 as [[]|]; cbn in Hm; try discriminate;
      injection Hm as <-; cbn in Ht; try discriminate; reflexivity. }
  rewrite Hj, He. exact Hm.
Qed.

(** Conversely a truthy guard is the value of [entry[0].messaging]. *)
Lemma truthy_guard_is_messaging (j g : value) :
  guard j = Normal g -> truthy g = true -> entry0_messaging j = Normal g.
Proof.
  unfold guard, js_and. cbn.
  destruct (truthy j) eqn:Hj.
  - destruct (entry0 j) as [e0|] eqn:He0; [|discriminate].
    destruct (truthy e0) eqn:He.
    + intros H _. exact H.
    + intros [= <-] Ht. congruence.
  - cbn. rewrite Hj. intros [= <-] Ht. congruence.
Qed.

(** *** The loop of the dispatch handler *)

Lemma log_nil (w : world) : log w [] = w.
Proof.
  destruct w. unfold log. cbn. rewrite app_nil_r. reflexivity.
Qed.

Lemma log_log (w : world) (a b : list notification) :
  log (log w a) b = log w (a ++ b).
Proof.
  unfold log. cbn. rewrite app_assoc. reflexivity.
Qed.

Lemma promote_throws (e : json) (w : world) :
  lacks_message e = true -> promote e w = (w, Throw TypeError).
Proof.
  unfold lacks_message, promote, lift. cbn.
  destruct (message_text (Some e)) as [t|err] eqn:Ht; [discriminate|].
  intros _. apply message_text_throws_TypeError in Ht. subst err. reflexivity.
Qed.

Lemma promote_publishes (e : json) (w : world) :
  lacks_message e = false -> promote e w = (log w (message_of e), Normal tt).
Proof.
  unfold lacks_message, promote, message_of, lift. cbn -[get].
  destruct (message_text (Some e)) as [t|err] eqn:Ht; [|discriminate].
  intros _. destruct (sender_readable e t Ht) as [s Hs]. rewrite Hs.
  destruct (truthy t); cbn.
  - reflexivity.
  - rewrite log_nil. reflexivity.
Qed.

(** The loop publishes the messages of the events before the first one
    it throws on, in their order, and throws there if there is one. *)
Lemma for_of_promote (evs : list json) (w : world) :
  for_of evs promote w =
  (log w (flat_map message_of (before_throw evs)),
   if existsb lacks_message evs then Throw TypeError else Normal tt).
Proof.
  revert w. induction evs as [|e rest IH]; intros w.
  - cbn. rewrite log_nil. reflexivity.
  - cbn [for_of before_throw existsb].
    destruct (lacks_message e) eqn:He.
    + cbn. rewrite (promote_throws e w He). cbn. rewrite log_nil. reflexivity.
    + cbn. rewrite (promote_publishes e w He). rewrite IH.
      rewrite log_log. reflexivity.
Qed.

Lemma before_throw_all (evs : list json) :
  existsb lacks_message evs = false -> before_throw evs = evs.
Proof.
  induction evs as [|e rest IH]; cbn; [reflexivity|].
  destruct (lacks_message e); cbn; [discriminate|].
  intros H. rewrite (IH H). reflexivity.
Qed.

Lemma before_throw_app (pre : list json) (e : json) (post : list json) :
  existsb lacks_message pre = false ->
  before_throw (pre ++ e :: post) =
  pre ++ (if lacks_message e then [] else e :: before_throw post).
Proof.
  induction pre as [|x pre IH]; cbn.
  - reflexivity.
  - destruct (lacks_message x); cbn; [discriminate|].
    intros H. rewrite (IH H). reflexivity.
Qed.

Lemma before_throw_prefix (evs : list json) :
  exists k, before_throw evs = firstn k evs.
Proof.
  induction evs as [|e rest [k IH]]; cbn.
  - exists 0%nat. reflexivity.
  - destruct (lacks_message e).
    + exists 0%nat. reflexivity.
    + exists (S k). cbn. rewrite IH. reflexivity.
Qed.

(** *** The dispatch handler *)

Lemma before_throw_stops (pre : list json) (e : json) (post : list json) :
  lacks_message e = true ->
  before_throw (pre ++ e :: post) = before_throw pre.
Proof.
  intros He. induction pre as [|x pre IH]; cbn.
  - rewrite He. reflexivity.
  - destruct (lacks_message x); [reflexivity|]. rewrite IH. reflexivity.
Qed.

(** What the handler does from the world the decoder leaves, by the
    value of its guard. *)
Lemma dispatch_handler_run (req : request) (b : raw_body) (j : json) :
  dispatch_handler req (after_decode b j) =
  match guard (Some j) with
  | Throw e => (after_decode b j, Throw e)
  | Normal g =>
      if truthy g then
        match iterate g with
        | Throw e => (log (after_decode b j) [Receive g], Throw e)
        | Normal evs =>
            let w := log (after_decode b j)
                       (Receive g :: flat_map message_of (before_throw evs)) in
            if existsb lacks_message evs
            then (w, Throw TypeError)
            else (answered w 200, Normal (Next None))
        end
      else (answered (after_decode b j) 200, Normal (Next None))
  end.
Proof.
  unfold dispatch_handler, read_json, lift. cbn.
  destruct (guard (Some j)) as [g|e] eqn:Hg; [|reflexivity].
  destruct (truthy g) eqn:Ht; [|reflexivity].
  rewrite (truthy_guard_is_messaging _ _ Hg Ht). cbn.
  destruct (iterate g) as [evs|e]; [|reflexivity].
  rewrite for_of_promote.
  destruct (existsb lacks_message evs); reflexivity.
Qed.

(** *** One request through the stack *)

Section Properties.

Variable bodyParser_read : request -> read_outcome.
Variable decodeURIComponent : string -> option string.
Variable Buffer_toString_utf8 : list Byte.byte -> string.
Variable JSON_parse : string -> option json.
Variable config : botConfig.

Local Abbreviation serve :=
  (MessengerBot.serve bodyParser_read decodeURIComponent Buffer_toString_utf8
     JSON_parse config).
Local Abbreviation published :=
  (MessengerBot.published bodyParser_read decodeURIComponent Buffer_toString_utf8
     JSON_parse config).
Local Abbreviation answer :=
  (MessengerBot.answer bodyParser_read decodeURIComponent Buffer_toString_utf8
     JSON_parse config).
Local Abbreviation status_seen :=
  (MessengerBot.status_seen bodyParser_read decodeURIComponent Buffer_toString_utf8
     JSON_parse config).
Local Abbreviation passed := (MessengerBot.passed bodyParser_read).
Local Abbreviation body_left := (MessengerBot.body_left bodyParser_read).
Local Abbreviation decoded :=
  (MessengerBot.decoded bodyParser_read Buffer_toString_utf8 JSON_parse).
Local Abbreviation path_decodes := (MessengerBot.path_decodes decodeURIComponent).
Local Abbreviation token req := (own_property "hub.verify_token" (query req)).
Local Abbreviation challenge req := (own_property "hub.challenge" (query req)).

(** The body parser on a new request. *)
Lemma rawParser_run (req : request) :
  rawParser bodyParser_read req fresh =
  (after_parser (body_left req),
   Normal (Next match bodyParser_read req with
                | Refuse status => Some (HttpError status)
                | _ => None
                end)).
Proof.
  unfold rawParser, MessengerBot.body_left.
  destruct (bodyParser_read req); reflexivity.
Qed.

Lemma passed_next (req : request) :
  passed req = true ->
  match bodyParser_read req with
  | Refuse status => Some (HttpError status)
  | _ => None
  end = None.
Proof.
  unfold MessengerBot.passed. destruct (bodyParser_read req); [reflexivity..|discriminate].
Qed.

Lemma decoded_Some (req : request) (j : json) :
  decoded req = Some j ->
  passed req = true /\
  JSON_parse (body_toString Buffer_toString_utf8 (body_left req)) = Some j.
Proof.
  unfold MessengerBot.decoded. destruct (passed req); [|discriminate].
  intros H. split; [reflexivity | exact H].
Qed.

Lemma decoded_None (req : request) :
  decoded req = None ->
  passed req = false \/
  (passed req = true /\
   JSON_parse (body_toString Buffer_toString_utf8 (body_left req)) = None).
Proof.
  unfold MessengerBot.decoded. destruct (passed req); [|left; reflexivity].
  intros H. right. split; [reflexivity | exact H].
Qed.

(** The error handler, called the way the router calls it, throws
    before it publishes or answers anything. *)
Lemma error_middleware_unbound (err : js_error) (req : request) (w : world) :
  error_middleware ThisUndefined err req w = (w, Throw TypeError).
Proof. reflexivity. Qed.

(** Called on the bot, with a subscriber listening to "error", it
    would publish the error and answer 400. *)
Lemma error_middleware_bound (err : js_error) (req : request) :
  error_middleware ThisBot err req fresh =
  (answered (log fresh [Error err]) 400, Normal (Next None)).
Proof. reflexivity. Qed.

(** A request the body parser refuses, whatever its method: the error
    reaches the error handler, which throws; no other handler runs. *)
Lemma serve_refused (req : request) :
  passed req = false ->
  serve req = (after_parser EmptyObject, FellThrough (Some TypeError)).
Proof.
  intros Hp. unfold MessengerBot.serve, _init. cbn [route arrow].
  unfold call at 1. rewrite rawParser_run.
  unfold MessengerBot.passed, MessengerBot.body_left in *.
  destruct (bodyParser_read req); try discriminate. reflexivity.
Qed.

(** A GET request ends in the verification middleware. *)
Lemma serve_GET (req : request) :
  method req = "GET" ->
  passed req = true ->
  serve req =
  ({| emitted := [];
      res := Some {| statusCode := 200;
                     content := if strict_equal_string (verifyToken config) (token req)
                                then challenge req
                                else Some (JStr "Error") |};
      req_body := Some (body_left req);
      req_json := undefined |}, Ended).
Proof.
  intros Hm Hp. unfold MessengerBot.serve, _init. cbn [route arrow].
  unfold call at 1. rewrite rawParser_run, (passed_next req Hp).
  unfold call, verify_middleware. rewrite Hm. cbn.
  destruct (strict_equal_string (verifyToken config) (token req)); reflexivity.
Qed.

(** A body that does not parse: the error reaches the error handler,
    which throws; nothing is published, nothing is answered by the
    stack. *)
Lemma serve_undecodable (req : request) :
  method req <> "GET" ->
  passed req = true ->
  JSON_parse (body_toString Buffer_toString_utf8 (body_left req)) = None ->
  serve req = (after_parser (body_left req), FellThrough (Some TypeError)).
Proof.
  intros Hm Hp Hd. apply String.eqb_neq in Hm.
  unfold MessengerBot.serve, _init. cbn [route arrow].
  unfold call at 1. rewrite rawParser_run, (passed_next req Hp).
  unfold call at 1. unfold verify_middleware. rewrite Hm. cbn [ret Monad_M].
  unfold call at 1. unfold decode_middleware, read_body, after_parser.
  cbn. rewrite Hd. reflexivity.
Qed.

(** The world and the pending error when the walk reaches the route of
    the dispatch handler. *)
Lemma serve_at_route (req : request) (j : json) :
  method req <> "GET" ->
  decoded req = Some j ->
  serve req =
  route [Route (match_star decodeURIComponent) (arrow dispatch_handler);
         HandleError error_middleware]
    None req (after_decode (body_left req) j).
Proof.
  intros Hm Hd. apply String.eqb_neq in Hm.
  destruct (decoded_Some req j Hd) as [Hp Hj].
  unfold MessengerBot.serve, _init. cbn [route arrow].
  unfold call at 1. rewrite rawParser_run, (passed_next req Hp).
  unfold call at 1. unfold verify_middleware. rewrite Hm. cbn [ret Monad_M].
  unfold call at 1. unfold decode_middleware, read_body, after_parser.
  cbn. rewrite Hj. reflexivity.
Qed.

(** A path that does not decode: the dispatch handler is not called,
    and the error of the match goes to the error handler. *)
Lemma serve_path_undecodable (req : request) (j : json) :
  method req <> "GET" ->
  decoded req = Some j ->
  path_decodes req = false ->
  serve req = (after_decode (body_left req) j, FellThrough (Some TypeError)).
Proof.
  intros Hm Hd Hpath. rewrite (serve_at_route req j Hm Hd).
  unfold MessengerBot.path_decodes in Hpath. cbn [route]. unfold match_star.
  destruct (decodeURIComponent (path req)); [discriminate|]. reflexivity.
Qed.

(** A body that parses to [j], on a path that decodes: the run is
    decided by the guard of the dispatch handler and by the loop. *)
Lemma serve_decoded (req : request) (j : json) :
  method req <> "GET" ->
  decoded req = Some j ->
  path_decodes req = true ->
  serve req =
  match guard (Some j) with
  | Throw _ => (after_decode (body_left req) j, FellThrough (Some TypeError))
  | Normal g =>
      if truthy g then
        match iterate g with
        | Throw _ => (log (after_decode (body_left req) j) [Receive g],
                      FellThrough (Some TypeError))
        | Normal evs =>
            let w := log (after_decode (body_left req) j)
                       (Receive g :: flat_map message_of (before_throw evs)) in
            if existsb lacks_message evs
            then (w, FellThrough (Some TypeError))
            else (answered w 200, FellThrough None)
        end
      else (answered (after_decode (body_left req) j) 200, FellThrough None)
  end.
Proof.
  intros Hm Hd Hpath. rewrite (serve_at_route req j Hm Hd).
  unfold MessengerBot.path_decodes in Hpath. cbn [route arrow]. unfold match_star.
  destruct (decodeURIComponent (path req)); [|discriminate].
  unfold call at 1. rewrite dispatch_handler_run.
  destruct (guard (Some j)) as [g|e]; [|reflexivity].
  destruct (truthy g); [|reflexivity].
  destruct (iterate g) as [evs|e]; [|reflexivity].
  cbv zeta. destruct (existsb lacks_message evs); reflexivity.
Qed.

(** A non-GET request that the decoder makes nothing of, because the
    body parser refused it or because its text does not parse. *)
Lemma undecodable_request (req : request) :
  method req <> "GET" ->
  decoded req = None ->
  published req = [] /\ answer req = None /\ status_seen req = Some 500%N.
Proof.
  intros Hm Hd.
  unfold MessengerBot.published, MessengerBot.answer, MessengerBot.status_seen.
  destruct (decoded_None req Hd) as [Hp | [Hp Hj]].
  - rewrite (serve_refused req Hp). repeat split; reflexivity.
  - rewrite (serve_undecodable req Hm Hp Hj). repeat split; reflexivity.
Qed.

(** *** The verification handshake *)


(** *** Bodies that parse to a falsy value *)

Lemma falsy_json (j : json) :
  truthy (Some j) = false <->
  j = JNull \/ j = JBool false \/
  (exists n, j = JNum n /\ rounds_to_zero n = true) \/ j = JStr "".
Proof.
  split.
  - destruct j as [| [] | n | s | |]; cbn; intros H; try discriminate; auto.
    + right. right. left. exists n. split; [reflexivity|].
      destruct (rounds_to_zero n); [reflexivity | discriminate].
    + right. right. right. f_equal.
      destruct (String.eqb_spec s ""); [assumption | discriminate].
  - intros [-> | [-> | [[n [-> Hn]] | ->]]]; cbn; try reflexivity.
    rewrite Hn. reflexivity.
Qed.


(** *** An event without a [message] member *)

(** C9.  When an event of the sequence has no [message], the loop
    throws, on that event or on an earlier one it cannot read:
    "receive" has been published, and the only messages published are
    those of events that come before; nothing is published for this
    event or a later one, the handler does not get to
    [res.sendStatus(200)], and its layer passes the [TypeError] to
    [next], that is to the error handler.  This holds from any world
    the decoder can leave; for a request that reaches the handler it
    gives the log and the answer of the request. *)
Theorem event_without_message (req : request) (j : json)
  (pre : list json) (e : json) (post : list json) :
  entry0_messaging (Some j) = Normal (Some (JArr (pre ++ e :: post))) ->
  get (Some e) message = Normal undefined ->
  let events := Some (JArr (pre ++ e :: post)) in
  let notes := Receive events :: flat_map message_of (before_throw pre) in
  (forall b,
     dispatch_handler req (after_decode b j)
     = (log (after_decode b j) notes, Throw TypeError) /\
     call (dispatch_handler req) (after_decode b j)
     = (log (after_decode b j) notes, Next (Some TypeError)) /\
     res (log (after_decode b j) notes) = None) /\
  (existsb lacks_message pre = false -> before_throw pre = pre) /\
  (method req <> "GET" ->
   decoded req = Some j ->
   path_decodes req = true ->
   serve req
   = route [HandleError error_middleware] (Some TypeError) req
       (log (after_decode (body_left req) j) notes) /\
   published req = notes /\
   answer req = None).
Proof.
  intros He0 He events notes.
  assert (Hlack : lacks_message e = true).
  { unfold lacks_message, message_text. cbn -[get]. rewrite He. reflexivity. }
  assert (Hex : existsb lacks_message (pre ++ e :: post) = true).
  { rewrite existsb_app. cbn. rewrite Hlack. apply orb_true_r. }
  assert (Hbt : before_throw (pre ++ e :: post) = before_throw pre)
    by (apply before_throw_stops; exact Hlack).
  assert (Hg : guard (Some j) = Normal events).
  { apply guard_of_truthy_messaging; [exact He0 | reflexivity]. }
  assert (Hrun : forall b, dispatch_handler req (after_decode b j)
                           = (log (after_decode b j) notes, Throw TypeError)).
  { intros b. rewrite dispatch_handler_run, Hg. cbn [truthy events iterate].
    cbv zeta. rewrite Hex, Hbt. reflexivity. }
  split; [|split].
  - intros b. split; [apply Hrun|]. split; [|reflexivity].
    unfold call. rewrite Hrun. reflexivity.
  - apply before_throw_all.
  - intros Hm Hd Hpath.
    assert (Hserve : serve req
                     = (log (after_decode (body_left req) j) notes,
                        FellThrough (Some TypeError))).
    { rewrite (serve_decoded req j Hm Hd Hpath), Hg. cbn [truthy events iterate].
      cbv zeta. rewrite Hex, Hbt. reflexivity. }
    unfold MessengerBot.published, MessengerBot.answer.
    rewrite Hserve. repeat split; reflexivity.
Qed.

(** *** What a decoded request publishes *)

Lemma no_receive_among_messages (evs : list json) :
  filter is_receive (flat_map message_of evs) = [].
Proof.
  induction evs as [|e rest IH]; cbn; [reflexivity|].
  rewrite filter_app, IH, app_nil_r. unfold message_of.
  destruct (message_text (Some e)) as [t|]; [|reflexivity].
  destruct (get (Some e) sender) as [s|]; [|reflexivity].
  destruct (truthy t); reflexivity.
Qed.

(** The messages published for a sequence are those of its events with
    a truthy text, one each, in the order of the sequence. *)
Lemma messages_in_order (evs : list json) :
  exists msgs,
    flat_map message_of evs = map Message msgs /\
    map ev_raw msgs = map Some (filter has_truthy_text evs).
Proof.
  induction evs as [|e rest (msgs & Hm & Hr)].
  - exists []. split; reflexivity.
  - cbn [flat_map filter]. unfold message_of at 1, has_truthy_text at 1.
    destruct (message_text (Some e)) as [t|] eqn:Ht.
    + destruct (sender_readable e t Ht) as [s Hs]. rewrite Hs.
      destruct (truthy t).
      * exists ({| ev_sender := s; ev_message := t; ev_raw := Some e |} :: msgs).
        cbn. rewrite Hm, Hr. split; reflexivity.
      * exists msgs. split; assumption.
    + exists msgs. split; assumption.
Qed.

(** The log of a non-GET request that reaches the dispatch handler
    with the parsed body [j]. *)
Lemma published_decoded (req : request) (j : json) :
  method req <> "GET" ->
  decoded req = Some j ->
  path_decodes req = true ->
  published req =
  match entry0_messaging (Some j) with
  | Normal m =>
      if truthy m
      then Receive m :: flat_map message_of (before_throw (sequence_of m))
      else []
  | Throw _ => []
  end.
Proof.
  intros Hm Hd Hpath. unfold MessengerBot.published.
  rewrite (serve_decoded req j Hm Hd Hpath).
  destruct (entry0_messaging (Some j)) as [m|e] eqn:He0.
  - destruct (truthy m) eqn:Ht.
    + rewrite (guard_of_truthy_messaging _ _ He0 Ht), Ht.
      unfold sequence_of. destruct (iterate m) as [evs|]; [|reflexivity].
      cbv zeta. destruct (existsb lacks_message evs); reflexivity.
    + destruct (guard (Some j)) as [g|] eqn:Hg; [|reflexivity].
      destruct (truthy g) eqn:Htg; [|reflexivity].
      rewrite (truthy_guard_is_messaging _ _ Hg Htg) in He0.
      injection He0 as ->. congruence.
  - destruct (guard (Some j)) as [g|] eqn:Hg; [|reflexivity].
    destruct (truthy g) eqn:Htg; [|reflexivity].
    rewrite (truthy_guard_is_messaging _ _ Hg Htg) in He0. discriminate.
Qed.

(** Everything else publishes nothing: a GET, a request the decoder
    makes nothing of, a path that does not decode. *)
Lemma published_nothing (req : request) :
  method req = "GET" \/ decoded req = None \/ path_decodes req = false ->
  published req = [].
Proof.
  unfold MessengerBot.published.
  destruct (passed req) eqn:Hp.
  2:{ intros _. rewrite (serve_refused req Hp). reflexivity. }
  destruct (String.eqb_spec (method req) "GET") as [Hget|Hm].
  { intros _. rewrite (serve_GET req Hget Hp). reflexivity. }
  destruct (decoded req) as [j|] eqn:Hd.
  - intros [Hget | [Hn | Hpath]]; [contradiction | discriminate |].
    rewrite (serve_path_undecodable req j Hm Hd Hpath). reflexivity.
  - intros _. destruct (undecodable_request req Hm Hd) as [H _]. exact H.
Qed.

(** A request is answered 200 by the dispatch handler only if the loop
    went through the whole sequence. *)
Lemma acknowledged_decoded (req : request) (j : json) (m : value) :
  method req <> "GET" ->
  decoded req = Some j ->
  path_decodes req = true ->
  entry0_messaging (Some j) = Normal m ->
  truthy m = true ->
  status_seen req = Some 200%N ->
  before_throw (sequence_of m) = sequence_of m.
Proof.
  intros Hm Hd Hpath He0 Ht. unfold MessengerBot.status_seen.
  rewrite (serve_decoded req j Hm Hd Hpath).
  rewrite (guard_of_truthy_messaging _ _ He0 Ht), Ht.
  unfold sequence_of. destruct (iterate m) as [evs|]; [|reflexivity].
  cbv zeta. destruct (existsb lacks_message evs) eqn:Hex.
  - cbn. discriminate.
  - intros _. apply before_throw_all. exact Hex.
Qed.

(** *** The notifications of the dispatch handler *)

(** C5, as amended.  On a request that reaches the dispatch handler
    (not a GET, passed on by the body parser, its body parsed, its path
    decoded), for an event that the loop reaches (every earlier event
    has a [message] to read [text] from), one "message" notification
    carrying [{ sender, message: text, raw: event }] is published when
    [message.text] is truthy, and none when it is not, the empty string
    included; it comes after the messages of the earlier events and
    before those of the later ones. *)
Theorem message_for_truthy_text (req : request) (j : json)
  (pre : list json) (e : json) (post : list json) (t : value) :
  method req <> "GET" ->
  decoded req = Some j ->
  path_decodes req = true ->
  entry0_messaging (Some j) = Normal (Some (JArr (pre ++ e :: post))) ->
  existsb lacks_message pre = false ->
  message_text (Some e) = Normal t ->
  exists s,
    get (Some e) sender = Normal s /\
    published req =
    Receive (Some (JArr (pre ++ e :: post)))
    :: flat_map message_of pre
    ++ (if truthy t
        then [Message {| ev_sender := s; ev_message := t; ev_raw := Some e |}]
        else [])
    ++ flat_map message_of (before_throw post).
Proof.
  intros Hm Hd Hpath He0 Hpre Ht.
  destruct (sender_readable e t Ht) as [s Hs]. exists s. split; [exact Hs|].
  rewrite (published_decoded req j Hm Hd Hpath), He0. cbn [truthy sequence_of iterate].
  assert (Hl : lacks_message e = false) by (unfold lacks_message; rewrite Ht; reflexivity).
  rewrite (before_throw_app pre e post Hpre), Hl.
  rewrite flat_map_app. cbn [flat_map].
  unfold message_of at 2. rewrite Ht, Hs. reflexivity.
Qed.

(** C6, as amended.  On a request that reaches the dispatch handler
    (not a GET, passed on by the body parser, its body parsed, its path
    decoded), "receive" is published once, first, carrying
    [entry[0].messaging], when that value is truthy (an empty array
    is), and not at all otherwise; a GET request, a request the decoder
    makes nothing of and one whose path does not decode publish
    nothing. *)
Theorem receive_iff_messaging_truthy (req : request) :
  (forall j,
     method req <> "GET" ->
     decoded req = Some j ->
     path_decodes req = true ->
     filter is_receive (published req) =
     match entry0_messaging (Some j) with
     | Normal m => if truthy m then [Receive m] else []
     | Throw _ => []
     end /\
     (count_receive (published req) = 1%nat <->
      exists m, entry0_messaging (Some j) = Normal m /\ truthy m = true) /\
     (forall m, entry0_messaging (Some j) = Normal m -> truthy m = true ->
                hd_error (published req) = Some (Receive m))) /\
  (method req = "GET" \/ decoded req = None \/ path_decodes req = false ->
   published req = []).
Proof.
  split; [|apply published_nothing].
  intros j Hm Hd Hpath. unfold count_receive.
  rewrite (published_decoded req j Hm Hd Hpath).
  destruct (entry0_messaging (Some j)) as [m|e].
  - destruct (truthy m) eqn:Ht.
    + cbn [filter is_receive hd_error]. rewrite no_receive_among_messages.
      split; [reflexivity|]. split.
      * split; [intros _; exists m; split; [reflexivity | exact Ht] | reflexivity].
      * intros m' [= <-] _. reflexivity.
    + split; [reflexivity|]. split.
      * split; [discriminate|]. intros [m' [[= <-] Ht']]. congruence.
      * intros m' [= <-] Ht'. congruence.
  - split; [reflexivity|]. split.
    + split; [discriminate|]. intros [m' [Hn _]]. discriminate.
    + intros m' Hn. discriminate.
Qed.

(** C7, as amended.  The log of a request is empty, or it starts with
    the one "receive" and goes on with "message" notifications only:
    those of the events with a truthy text among the events the loop
    got through, one each and in the order of the sequence.  When the
    request is answered 200 the loop got through the whole sequence. *)
Theorem receive_then_messages_in_order (req : request) :
  published req = [] \/
  exists j m msgs,
    decoded req = Some j /\
    entry0_messaging (Some j) = Normal m /\
    published req = Receive m :: map Message msgs /\
    map ev_raw msgs =
    map Some (filter has_truthy_text (before_throw (sequence_of m))) /\
    (status_seen req = Some 200%N ->
     before_throw (sequence_of m) = sequence_of m).
Proof.
  destruct (String.eqb_spec (method req) "GET") as [Hget|Hm].
  { left. apply published_nothing. left. exact Hget. }
  destruct (decoded req) as [j|] eqn:Hd.
  2:{ left. apply published_nothing. right. left. exact Hd. }
  destruct (path_decodes req) eqn:Hpath.
  2:{ left. apply published_nothing. right. right. exact Hpath. }
  pose proof (published_decoded req j Hm Hd Hpath) as Hp.
  destruct (entry0_messaging (Some j)) as [m|e] eqn:He0; [|left; exact Hp].
  destruct (truthy m) eqn:Ht; [|left; exact Hp].
  right. destruct (messages_in_order (before_throw (sequence_of m))) as (msgs & Hmsgs & Hraw).
  exists j, m, msgs. split; [reflexivity|]. split; [exact He0|].
  split; [rewrite Hp, Hmsgs; reflexivity|]. split; [exact Hraw|].
  apply (acknowledged_decoded req j m Hm Hd Hpath He0 Ht).
Qed.

(** *** Requests that end in the final handler *)

(** A parsed body without an [entry] member: [req.json.entry[0]] throws
    inside the guard. *)
Lemma entry_absent_request (req : request) (members : list (string * json)) :
  method req <> "GET" ->
  decoded req = Some (JObj members) ->
  path_decodes req = true ->
  own_property "entry" members = undefined ->
  published req = [] /\ answer req = None /\ status_seen req = Some 500%N.
Proof.
  intros Hm Hd Hpath He.
  assert (Hg : guard (Some (JObj members)) = Throw TypeError).
  { unfold guard, js_and, entry0. cbn. rewrite He. reflexivity. }
  unfold MessengerBot.published, MessengerBot.answer, MessengerBot.status_seen.
  rewrite (serve_decoded req _ Hm Hd Hpath), Hg. repeat split; reflexivity.
Qed.

(** With [entry] there, an absent [entry[0]] or an absent [messaging]
    makes the guard fail quietly. *)
Lemma absent_entry0_or_messaging (req : request) (j : json) :
  method req <> "GET" ->
  decoded req = Some j ->
  path_decodes req = true ->
  entry0 (Some j) = Normal undefined \/
  entry0_messaging (Some j) = Normal undefined ->
  published req = [] /\
  answer req = Some {| statusCode := 200; content := Some (JStr "OK") |} /\
  status_seen req = Some 200%N.
Proof.
  intros Hm Hd Hpath Habs.
  assert (Hg : exists g, guard (Some j) = Normal g /\ truthy g = false).
  { unfold guard, js_and. cbn -[truthy].
    destruct (truthy (Some j)) eqn:Hj; cbn -[truthy].
    - destruct Habs as [H0 | H0].
      + rewrite H0. cbn. exists undefined. split; reflexivity.
      + unfold entry0_messaging in H0 |- *. cbn -[truthy] in H0 |- *.
        destruct (entry0 (Some j)) as [e0|]; [|discriminate].
        cbn -[truthy]. destruct (truthy e0) eqn:He.
        * rewrite H0. exists undefined. split; reflexivity.
        * exists e0. split; [reflexivity | exact He].
    - rewrite Hj. exists (Some j). split; [reflexivity | exact Hj]. }
  destruct Hg as (g & Hg & Hf).
  unfold MessengerBot.published, MessengerBot.answer, MessengerBot.status_seen.
  rewrite (serve_decoded req j Hm Hd Hpath), Hg, Hf. repeat split; reflexivity.
Qed.

End Properties.

(* ===================================================================== *)
(** ** The scenarios, run *)
(* ===================================================================== *)

(** The third scenario of the specification: one event with a text. *)
Example scenario_hello :
  let e := JObj [("sender", JObj [("id", JStr "u1")]);
                 ("message", JObj [("text", JStr "hello")])] in
  let req :=
    POST "{'entry':[{'messaging':[{'sender':{'id':'u1'},'message':{'text':'hello'}}]}]}" in
  run_published req =
  [ Receive (Some (JArr [e]));
    Message {| ev_sender := Some (JObj [("id", JStr "u1")]);
               ev_message := Some (JStr "hello");
               ev_raw := Some e |} ] /\
  run_status req = Some 200%N.
Proof. vm_compute. split; reflexivity. Qed.

(** A handshake with the right token and a body of 102401 bytes, one
    more than the body parser reads: the verifier is not reached. *)
Example oversize_GET_run :
  passed (BodyParser.read scenario_inflate) (GET_with_body "V1" "xyz123" 102401) = false /\
  run_published (GET_with_body "V1" "xyz123" 102401) = [] /\
  run_answer (GET_with_body "V1" "xyz123" 102401) = None /\
  run_status (GET_with_body "V1" "xyz123" 102401) = Some 500%N /\
  run_status (GET_with_body "V1" "xyz123" 102400) = Some 200%N.
Proof. vm_compute. repeat split; reflexivity. Qed.

(** *** Where the code departs from the specification *)

(** C2.  A POST with the body [not-json]: the text does not parse, the
    error handler is entered with [this] undefined and throws at
    [this.emit]; no "error" notification is published, the stack sends
    no 400, and the final handler answers 500. *)
Example undecodable_body_run :
  parsed (POST "not-json") = None /\
  run (POST "not-json")
  = (after_parser (Buffer (list_byte_of_string "not-json")),
     FellThrough (Some TypeError)) /\
  run_published (POST "not-json") = [] /\
  run_answer (POST "not-json") = None /\
  run_status (POST "not-json") = Some 500%N.
Proof. vm_compute. repeat split; reflexivity. Qed.

(** C3.  A POST with the body [{}], a valid JSON text: [req.json.entry]
    is undefined and [req.json.entry[0]] throws; the handler never
    reaches [res.sendStatus(200)]. *)
Example empty_object_run :
  parsed (POST "{}") = Some (JObj []) /\
  guard (Some (JObj [])) = Throw TypeError /\
  run_published (POST "{}") = [] /\
  run_answer (POST "{}") = None /\
  run_status (POST "{}") = Some 500%N.
Proof. vm_compute. repeat split; reflexivity. Qed.

(** C4.  A POST whose payload has no [entry]: the guard throws instead
    of failing quietly, and the request is not answered 200. *)
Example entry_absent_run :
  let req := POST "{'object':'page'}" in
  parsed req = Some (JObj [("object", JStr "page")]) /\
  get (Some (JObj [("object", JStr "page")])) entry = Normal undefined /\
  run req = (after_decode (Buffer (payload req)) (JObj [("object", JStr "page")]),
             FellThrough (Some TypeError)) /\
  run_published req = [] /\
  run_answer req = None /\
  run_status req = Some 500%N.
Proof. vm_compute. repeat split; reflexivity. Qed.

(** C8.  A POST with an empty body: the stack sends no response of its
    own, and the status the client receives is neither 200 nor 400. *)
Example empty_body_status :
  parsed (POST "") = None /\
  run_published (POST "") = [] /\
  run_answer (POST "") = None /\
  run_status (POST "") = Some 500%N /\
  run_status (POST "") <> Some 200%N /\
  run_status (POST "") <> Some 400%N.
Proof. vm_compute. repeat split; try reflexivity; discriminate. Qed.

(** *** Counterexamples to the specification as stated *)


(** C5, as stated, fails on an event whose text is the empty string:
    the member is present and no "message" notification is
    published.  It also fails for an event with a text in a request
    that does not reach the dispatch handler, here for its path. *)
Lemma empty_text_not_promoted :
  let e := JObj [("sender", JObj [("id", JStr "u1")]);
                 ("message", JObj [("text", JStr "")])] in
  let req :=
    POST "{'entry':[{'messaging':[{'sender':{'id':'u1'},'message':{'text':''}}]}]}" in
  let hello := JObj [("message", JObj [("text", JStr "hello")])] in
  let lost :=
    with_body "POST" "/%E0%A4%A"
      (list_byte_of_string
         (JSON.dq "{'entry':[{'messaging':[{'message':{'text':'hello'}}]}]}")) in
  (parsed req = Some (JObj [("entry", JArr [JObj [("messaging", JArr [e])]])]) /\
   message_text (Some e) = Normal (Some (JStr "")) /\
   spec_text_present e = true /\
   run_published req = [Receive (Some (JArr [e]))] /\
   run_status req = Some 200%N) /\
  (parsed lost = Some (JObj [("entry", JArr [JObj [("messaging", JArr [hello])]])]) /\
   spec_text_present hello = true /\
   run_published lost = []).
Proof. vm_compute. repeat split; reflexivity. Qed.

(** C6, as stated, fails on an empty [messaging] array: the extracted
    sequence is empty and "receive" is published, carrying it.  It
    also fails, the other way round, on a request that does not reach
    the dispatch handler, here for its path: the sequence is not empty
    and no "receive" is published. *)
Lemma receive_for_empty_sequence :
  let j := JObj [("entry", JArr [JObj [("messaging", JArr [])]])] in
  let req := POST "{'entry':[{'messaging':[]}]}" in
  let j' := JObj [("entry", JArr [JObj [("messaging", JArr [JObj []])]])] in
  let lost :=
    with_body "POST" "/%E0%A4%A"
      (list_byte_of_string (JSON.dq "{'entry':[{'messaging':[{}]}]}")) in
  (parsed req = Some j /\
   spec_extracted_sequence j = [] /\
   run_published req = [Receive (Some (JArr []))] /\
   count_receive (run_published req) = 1%nat) /\
  (parsed lost = Some j' /\
   spec_extracted_sequence j' = [JObj []] /\
   count_receive (run_published lost) = 0%nat).
Proof. vm_compute. repeat split; reflexivity. Qed.

(** C7, as stated, fails on a sequence whose first event has an empty
    text: the text is present in both events, and only the second one
    is promoted. *)
Lemma present_text_filtered :
  let e1 := JObj [("message", JObj [("text", JStr "")])] in
  let e2 := JObj [("message", JObj [("text", JStr "hi")])] in
  let req :=
    POST "{'entry':[{'messaging':[{'message':{'text':''}},{'message':{'text':'hi'}}]}]}" in
  parsed req = Some (JObj [("entry", JArr [JObj [("messaging", JArr [e1; e2])]])]) /\
  filter spec_text_present [e1; e2] = [e1; e2] /\
  run_published req =
  [ Receive (Some (JArr [e1; e2]));
    Message {| ev_sender := undefined; ev_message := Some (JStr "hi");
               ev_raw := Some e2 |} ].
Proof. vm_compute. repeat split; reflexivity. Qed.


(** *** The theorems at the scenarios *)



(** Three events, the second without a [message]; and two events, the
    first [null]. *)
Lemma event_without_message_witness :
  let e1 := JObj [("message", JObj [("text", JStr "a")])] in
  let e2 := JObj [("sender", JObj [("id", JStr "u2")])] in
  let e3 := JObj [("message", JObj [("text", JStr "c")])] in
  let req :=
    POST "{'entry':[{'messaging':[{'message':{'text':'a'}},{'sender':{'id':'u2'}},{'message':{'text':'c'}}]}]}" in
  let req' := POST "{'entry':[{'messaging':[null,{}]}]}" in
  get (Some e2) message = Normal undefined /\
  run_published req =
  [ Receive (Some (JArr [e1; e2; e3]));
    Message {| ev_sender := undefined; ev_message := Some (JStr "a");
               ev_raw := Some e1 |} ] /\
  run_answer req = None /\
  run_published req' = [Receive (Some (JArr [JNull; JObj []]))] /\
  run_answer req' = None.
Proof.
  intros e1 e2 e3 req req'.
  assert (Hm : method req <> "GET") by discriminate.
  assert (Hm' : method req' <> "GET") by discriminate.
  pose proof (event_without_message (BodyParser.read scenario_inflate)
                URI.decodeURIComponent toString_wellformed JSON.parse scenario_config
                req (JObj [("entry", JArr [JObj [("messaging", JArr [e1; e2; e3])]])])
                [e1] e2 [e3] eq_refl eq_refl) as H.
  cbv zeta in H. destruct H as (_ & _ & H).
  destruct (H Hm eq_refl eq_refl) as (_ & Hp & Ha).
  pose proof (event_without_message (BodyParser.read scenario_inflate)
                URI.decodeURIComponent toString_wellformed JSON.parse scenario_config
                req' (JObj [("entry", JArr [JObj [("messaging", JArr [JNull; JObj []])]])])
                [JNull] (JObj []) [] eq_refl eq_refl) as H'.
  cbv zeta in H'. destruct H' as (_ & _ & H').
  destruct (H' Hm' eq_refl eq_refl) as (_ & Hp' & Ha').
  split; [reflexivity|]. split; [exact Hp|]. split; [exact Ha|].
  split; [exact Hp' | exact Ha'].
Defined.

(** The event of the third scenario. *)
Lemma message_for_truthy_text_witness :
  let e := JObj [("sender", JObj [("id", JStr "u1")]);
                 ("message", JObj [("text", JStr "hello")])] in
  let req :=
    POST "{'entry':[{'messaging':[{'sender':{'id':'u1'},'message':{'text':'hello'}}]}]}" in
  message_text (Some e) = Normal (Some (JStr "hello")) /\
  exists s,
    get (Some e) sender = Normal s /\
    run_published req =
    [ Receive (Some (JArr [e]));
      Message {| ev_sender := s; ev_message := Some (JStr "hello"); ev_raw := Some e |} ].
Proof.
  intros e req.
  assert (Hm : method req <> "GET") by discriminate.
  split; [reflexivity|].
  exact (message_for_truthy_text (BodyParser.read scenario_inflate)
           URI.decodeURIComponent toString_wellformed JSON.parse scenario_config
           req (JObj [("entry", JArr [JObj [("messaging", JArr [e])]])])
           [] e [] (Some (JStr "hello")) Hm eq_refl eq_refl eq_refl eq_refl eq_refl).
Defined.

(** A payload with two events, and the first GET scenario. *)
Lemma receive_iff_messaging_truthy_witness :
  let e1 := JObj [("message", JObj [("text", JStr "hi")])] in
  let e2 := JObj [("message", JObj [])] in
  let req :=
    POST "{'entry':[{'messaging':[{'message':{'text':'hi'}},{'message':{}}]}]}" in
  parsed req = Some (JObj [("entry", JArr [JObj [("messaging", JArr [e1; e2])]])]) /\
  filter is_receive (run_published req) = [Receive (Some (JArr [e1; e2]))] /\
  hd_error (run_published req) = Some (Receive (Some (JArr [e1; e2]))) /\
  run_published (GET "V1" "xyz123") = [].
Proof.
  intros e1 e2 req.
  assert (Hm : method req <> "GET") by discriminate.
  destruct (receive_iff_messaging_truthy (BodyParser.read scenario_inflate)
              URI.decodeURIComponent toString_wellformed JSON.parse scenario_config
              req) as [Hpost _].
  destruct (Hpost (JObj [("entry", JArr [JObj [("messaging", JArr [e1; e2])]])])
              Hm eq_refl eq_refl) as (Hf & _ & Hhd).
  destruct (receive_iff_messaging_truthy (BodyParser.read scenario_inflate)
              URI.decodeURIComponent toString_wellformed JSON.parse scenario_config
              (GET "V1" "xyz123")) as [_ Hget].
  split; [reflexivity|]. split; [exact Hf|].
  split; [exact (Hhd (Some (JArr [e1; e2])) eq_refl eq_refl)|].
  exact (Hget (or_introl eq_refl)).
Defined.

(** The log of the third scenario is not empty: it has the shape the
    theorem gives. *)
Lemma receive_then_messages_in_order_witness :
  let req :=
    POST "{'entry':[{'messaging':[{'sender':{'id':'u1'},'message':{'text':'hello'}}]}]}" in
  exists m msgs,
    run_published req = Receive m :: map Message msgs /\
    map ev_raw msgs =
    map Some (filter has_truthy_text (before_throw (sequence_of m))).
Proof.
  intros req.
  destruct (receive_then_messages_in_order (BodyParser.read scenario_inflate)
              URI.decodeURIComponent toString_wellformed JSON.parse
              scenario_config req) as [Hnil | (j & m & msgs & _ & _ & Hp & Hr & _)].
  - discriminate Hnil.
  - exists m, msgs. split; [exact Hp | exact Hr].
Defined.

(* ===================================================================== *)
(** ** Further properties of the stack and of the sender *)
(* ===================================================================== *)



Lemma no_error_among_messages (evs : list json) :
  filter is_error (flat_map message_of evs) = [].
Proof.
  induction evs as [|e rest IH]; cbn; [reflexivity|].
  rewrite filter_app, IH, app_nil_r. unfold message_of.
  destruct (message_text (Some e)) as [t|]; [|reflexivity].
  destruct (get (Some e) sender) as [s|]; [|reflexivity].
  destruct (truthy t); reflexivity.
Qed.

Lemma before_throw_incl (evs : list json) (e : json) :
  In e (before_throw evs) -> In e evs.
Proof.
  induction evs as [|x rest IH]; cbn; [tauto|].
  destruct (lacks_message x); cbn; [tauto|].
  intros [H | H]; [left; exact H | right; exact (IH H)].
Qed.

(** What a "message" notification of an event can be. *)
Lemma message_of_inv (e : json) (m : message_event) :
  In (Message m) (message_of e) ->
  ev_raw m = Some e /\
  message_text (Some e) = Normal (ev_message m) /\
  truthy (ev_message m) = true /\
  get (Some e) sender = Normal (ev_sender m).
Proof.
  unfold message_of.
  destruct (message_text (Some e)) as [t|]; [|contradiction].
  destruct (get (Some e) sender) as [s|]; [|contradiction].
  destruct (truthy t) eqn:Ht; [|contradiction].
  intros [[= <-] | []]. cbn. repeat split; try reflexivity. exact Ht.
Qed.




Section Stack.

Variable bodyParser_read : request -> read_outcome.
Variable decodeURIComponent : string -> option string.
Variable Buffer_toString_utf8 : list Byte.byte -> string.
Variable JSON_parse : string -> option json.
Variable config : botConfig.

Local Abbreviation serve :=
  (MessengerBot.serve bodyParser_read decodeURIComponent Buffer_toString_utf8
     JSON_parse config).
Local Abbreviation published :=
  (MessengerBot.published bodyParser_read decodeURIComponent Buffer_toString_utf8
     JSON_parse config).
Local Abbreviation answer :=
  (MessengerBot.answer bodyParser_read decodeURIComponent Buffer_toString_utf8
     JSON_parse config).
Local Abbreviation status_seen :=
  (MessengerBot.status_seen bodyParser_read decodeURIComponent Buffer_toString_utf8
     JSON_parse config).
Local Abbreviation passed := (MessengerBot.passed bodyParser_read).
Local Abbreviation body_left := (MessengerBot.body_left bodyParser_read).
Local Abbreviation decoded :=
  (MessengerBot.decoded bodyParser_read Buffer_toString_utf8 JSON_parse).
Local Abbreviation path_decodes := (MessengerBot.path_decodes decodeURIComponent).



(** X2.  No request makes the bot publish an "error" notification. *)
Theorem error_never_published (req : request) :
  filter is_error (published req) = [].
Proof.
  destruct (String.eqb_spec (method req) "GET") as [Hget|Hm].
  { rewrite (published_nothing _ _ _ _ _ req (or_introl Hget)). reflexivity. }
  destruct (decoded req) as [j|] eqn:Hd.
  2:{ rewrite (published_nothing _ _ _ _ _ req (or_intror (or_introl Hd))).
      reflexivity. }
  destruct (path_decodes req) eqn:Hpath.
  2:{ rewrite (published_nothing _ _ _ _ _ req (or_intror (or_intror Hpath))).
      reflexivity. }
  rewrite (published_decoded _ _ _ _ _ req j Hm Hd Hpath).
  destruct (entry0_messaging (Some j)) as [m|]; [|reflexivity].
  destruct (truthy m); [|reflexivity].
  cbn. apply no_error_among_messages.
Qed.



(** X5.  Every "message" notification agrees with the event it was
    made from: [raw] is an event of the sequence that the "receive"
    notification at the head of the log carries, [message] is the
    [message.text] of that event and is truthy, and [sender] is its
    [sender]. *)
Theorem message_matches_raw (req : request) (m : message_event) :
  In (Message m) (published req) ->
  exists e seq,
    ev_raw m = Some e /\
    message_text (Some e) = Normal (ev_message m) /\
    truthy (ev_message m) = true /\
    get (Some e) sender = Normal (ev_sender m) /\
    hd_error (published req) = Some (Receive seq) /\
    In e (sequence_of seq).
Proof.
  destruct (String.eqb_spec (method req) "GET") as [Hget|Hm].
  { rewrite (published_nothing _ _ _ _ _ req (or_introl Hget)). contradiction. }
  destruct (decoded req) as [j|] eqn:Hd.
  2:{ rewrite (published_nothing _ _ _ _ _ req (or_intror (or_introl Hd))).
      contradiction. }
  destruct (path_decodes req) eqn:Hpath.
  2:{ rewrite (published_nothing _ _ _ _ _ req (or_intror (or_intror Hpath))).
      contradiction. }
  rewrite (published_decoded _ _ _ _ _ req j Hm Hd Hpath).
  destruct (entry0_messaging (Some j)) as [seq|]; [|contradiction].
  destruct (truthy seq); [|contradiction].
  intros [Habs | Hin]; [discriminate|].
  apply in_flat_map in Hin. destruct Hin as (e & He & Hme).
  destruct (message_of_inv e m Hme) as (Hraw & Htext & Ht & Hs).
  exists e, seq. repeat split; try assumption.
  apply before_throw_incl. exact He.
Qed.

(** X6.  On a request that reaches the dispatch handler, when
    [entry[0].messaging] is truthy and is not an array (a non-empty
    string, an object, a number, [true]), "receive" is published with
    it and the loop then throws: nothing else is published and the
    stack does not answer. *)
Theorem messaging_not_an_array (req : request) (j : json) (m : value) :
  method req <> "GET" ->
  decoded req = Some j ->
  path_decodes req = true ->
  entry0_messaging (Some j) = Normal m ->
  truthy m = true ->
  (forall evs, m <> Some (JArr evs)) ->
  published req = [Receive m] /\
  answer req = None /\
  status_seen req = Some 500%N.
Proof.
  intros Hm Hd Hpath He0 Ht Hna.
  unfold MessengerBot.published, MessengerBot.answer, MessengerBot.status_seen.
  rewrite (serve_decoded _ _ _ _ _ req j Hm Hd Hpath).
  rewrite (guard_of_truthy_messaging _ _ He0 Ht), Ht.
  destruct m as [[| b | n | s | evs | members]|]; try discriminate;
    try (repeat split; reflexivity).
  - destruct s as [|c s']; [discriminate|].
    cbn. repeat split; reflexivity.
  - exfalso. apply (Hna evs). reflexivity.
Qed.



(** X9.  A request other than GET that the body parser leaves alone
    (no body, or no content type) has the empty object as [req.body];
    what is parsed is then the text [[object Object]], which is no
    JSON: nothing is published and the stack does not answer. *)
Theorem request_without_body (req : request) :
  method req <> "GET" ->
  bodyParser_read req = Skip ->
  JSON_parse "[object Object]" = None ->
  published req = [] /\ answer req = None /\ status_seen req = Some 500%N.
Proof.
  intros Hm Hb Hp. apply undecodable_request; [exact Hm|].
  unfold MessengerBot.decoded, MessengerBot.passed, MessengerBot.body_left.
  rewrite Hb. exact Hp.
Qed.

(** X12.  The route of the dispatch handler is entered only when the
    path can be percent-decoded: a request other than GET on a path
    that cannot ends with nothing published and without an answer of
    the stack, whatever its body. *)
Theorem path_not_decodable (req : request) :
  method req <> "GET" ->
  path_decodes req = false ->
  published req = [] /\ answer req = None /\ status_seen req = Some 500%N.
Proof.
  intros Hm Hpath. destruct (decoded req) as [j|] eqn:Hd.
  - unfold MessengerBot.published, MessengerBot.answer, MessengerBot.status_seen.
    rewrite (serve_path_undecodable _ _ _ _ _ req j Hm Hd Hpath).
    repeat split; reflexivity.
  - apply undecodable_request; assumption.
Qed.

End Stack.

(** *** The sender *)

(** X10.  [postText] makes one call and no more: the calls made on the
    fetcher grow by exactly one, [post] with the path [me/messages] and
    the data [{ recipient: user, message: { text: message } }], and
    the promise settles as the platform settles that call, the
    response on success, the same error on failure.  Only a failure
    writes to the console, one line, the error's stack. *)
Theorem postText_settles_as_post (platform_response failure : Type)
  (stack : failure -> value)
  (settle : Outbound.http_call -> Outbound.promise platform_response failure)
  (config : botConfig) (user message : value) (t : Outbound.trace) :
  let sent :=
    {| Outbound.via := Outbound._fetcher config;
       Outbound.url := "me/messages";
       Outbound.data :=
         {| Outbound.recipient := user;
            Outbound.message := {| Outbound.text := message |} |} |} in
  let after :=
    Outbound.postText platform_response failure stack settle config user message t in
  Outbound.outbox (fst after) = Outbound.outbox t ++ [sent] /\
  snd after = settle sent /\
  Outbound.console (fst after)
  = Outbound.console t ++ match settle sent with
                          | Outbound.Rejected err => [stack err]
                          | Outbound.Resolved _ => []
                          end.
Proof.
  cbv zeta. unfold Outbound.postText, Outbound.catch_, Outbound.post,
    Outbound.console_error.
  destruct (settle _) as [r|err]; cbn.
  - rewrite app_nil_r. repeat split; reflexivity.
  - repeat split; reflexivity.
Qed.

(** X11.  The two secrets are kept apart.  The inbound stack uses the
    configuration only through the verify token: two bots with the same
    verify token treat every request alike.  The sender uses it only
    through the page access token: two bots with the same access token
    send alike. *)
Theorem credentials_kept_apart
  (bodyParser_read : request -> read_outcome)
  (decodeURIComponent : string -> option string)
  (Buffer_toString_utf8 : list Byte.byte -> string)
  (JSON_parse : string -> option json)
  (platform_response failure : Type) (stack : failure -> value)
  (settle : Outbound.http_call -> Outbound.promise platform_response failure)
  (config config' : botConfig) :
  (verifyToken config = verifyToken config' ->
   forall req,
     serve bodyParser_read decodeURIComponent Buffer_toString_utf8 JSON_parse
       config req =
     serve bodyParser_read decodeURIComponent Buffer_toString_utf8 JSON_parse
       config' req) /\
  (pageAccessToken config = pageAccessToken config' ->
   forall user message t,
     Outbound.postText platform_response failure stack settle config user message t =
     Outbound.postText platform_response failure stack settle config' user message t).
Proof.
  split.
  - intros Hv req.
    unfold serve, _init, verify_middleware. rewrite Hv. reflexivity.
  - intros Hp user message t.
    unfold Outbound.postText, Outbound._fetcher. rewrite Hp. reflexivity.
Qed.

(** *** The further properties at concrete requests *)



Lemma message_matches_raw_witness :
  let e := JObj [("sender", JObj [("id", JStr "u1")]);
                 ("message", JObj [("text", JStr "hello")])] in
  let m := {| ev_sender := Some (JObj [("id", JStr "u1")]);
              ev_message := Some (JStr "hello");
              ev_raw := Some e |} in
  let req :=
    POST "{'entry':[{'messaging':[{'sender':{'id':'u1'},'message':{'text':'hello'}}]}]}" in
  In (Message m) (run_published req) /\
  exists e' seq,
    ev_raw m = Some e' /\
    message_text (Some e') = Normal (ev_message m) /\
    truthy (ev_message m) = true /\
    get (Some e') sender = Normal (ev_sender m) /\
    hd_error (run_published req) = Some (Receive seq) /\
    In e' (sequence_of seq).
Proof.
  intros e m req.
  assert (Hin : In (Message m) (run_published req)) by (right; left; reflexivity).
  split; [exact Hin|].
  exact (message_matches_raw (BodyParser.read scenario_inflate)
           URI.decodeURIComponent toString_wellformed JSON.parse scenario_config
           req m Hin).
Defined.

Lemma messaging_not_an_array_witness :
  let req := POST "{'entry':[{'messaging':'hi'}]}" in
  parsed req = Some (JObj [("entry", JArr [JObj [("messaging", JStr "hi")]])]) /\
  run_published req = [Receive (Some (JStr "hi"))] /\
  run_answer req = None /\
  run_status req = Some 500%N.
Proof.
  intros req.
  assert (Hm : method req <> "GET") by discriminate.
  split; [reflexivity|].
  apply (messaging_not_an_array (BodyParser.read scenario_inflate)
           URI.decodeURIComponent toString_wellformed JSON.parse scenario_config req
           (JObj [("entry", JArr [JObj [("messaging", JStr "hi")]])])
           (Some (JStr "hi")) Hm eq_refl eq_refl eq_refl eq_refl).
  intros evs. discriminate.
Defined.



(** A POST without a body, and one with a body and no content type. *)
Lemma request_without_body_witness :
  let bare :=
    {| method := "POST"; path := "/"; query := []; headers := []; payload := [] |} in
  let untyped :=
    {| method := "POST"; path := "/"; query := [];
       headers := [("content-length", "4")];
       payload := list_byte_of_string "null" |} in
  JSON.parse "[object Object]" = None /\
  (run_published bare = [] /\ run_answer bare = None /\ run_status bare = Some 500%N) /\
  (run_published untyped = [] /\ run_answer untyped = None /\
   run_status untyped = Some 500%N).
Proof.
  intros bare untyped.
  assert (Hb : method bare <> "GET") by discriminate.
  assert (Hu : method untyped <> "GET") by discriminate.
  split; [reflexivity|]. split.
  - exact (request_without_body (BodyParser.read scenario_inflate)
             URI.decodeURIComponent toString_wellformed JSON.parse scenario_config
             bare Hb eq_refl eq_refl).
  - exact (request_without_body (BodyParser.read scenario_inflate)
             URI.decodeURIComponent toString_wellformed JSON.parse scenario_config
             untyped Hu eq_refl eq_refl).
Defined.

(** The third scenario, sent to a path that ends in a broken escape. *)
Lemma path_not_decodable_witness :
  let req :=
    with_body "POST" "/%E0%A4%A"
      (list_byte_of_string
         (JSON.dq "{'entry':[{'messaging':[{'sender':{'id':'u1'},'message':{'text':'hello'}}]}]}")) in
  URI.decodeURIComponent (path req) = None /\
  run_published req = [] /\ run_answer req = None /\ run_status req = Some 500%N.
Proof.
  intros req.
  assert (Hm : method req <> "GET") by discriminate.
  split; [reflexivity|].
  exact (path_not_decodable (BodyParser.read scenario_inflate)
           URI.decodeURIComponent toString_wellformed JSON.parse scenario_config
           req Hm eq_refl).
Defined.

Lemma credentials_kept_apart_witness :
  run (GET "V1" "xyz123")
  = serve (BodyParser.read scenario_inflate) URI.decodeURIComponent
      toString_wellformed JSON.parse
      {| pageAccessToken := "T2"; verifyToken := "V1" |} (GET "V1" "xyz123") /\
  Outbound.postText value string (fun err => Some (JStr err)) scenario_settle
    scenario_config (Some (JStr "u1")) (Some (JStr "hello"))
    {| Outbound.console := []; Outbound.outbox := [] |}
  = Outbound.postText value string (fun err => Some (JStr err)) scenario_settle
      {| pageAccessToken := "T1"; verifyToken := "V2" |}
      (Some (JStr "u1")) (Some (JStr "hello"))
      {| Outbound.console := []; Outbound.outbox := [] |}.
Proof.
  split.
  - exact (proj1 (credentials_kept_apart (BodyParser.read scenario_inflate)
                    URI.decodeURIComponent toString_wellformed JSON.parse
                    value string (fun err => Some (JStr err)) scenario_settle
                    scenario_config {| pageAccessToken := "T2"; verifyToken := "V1" |})
             eq_refl (GET "V1" "xyz123")).
  - exact (proj2 (credentials_kept_apart (BodyParser.read scenario_inflate)
                    URI.decodeURIComponent toString_wellformed JSON.parse
                    value string (fun err => Some (JStr err)) scenario_settle
                    scenario_config {| pageAccessToken := "T1"; verifyToken := "V2" |})
             eq_refl (Some (JStr "u1")) (Some (JStr "hello"))
             {| Outbound.console := []; Outbound.outbox := [] |}).
Defined.
